(** * prism-samplernn: the dataset windowing pipeline and the generation driver

    A shallow embedding of [dataset.py] and [generate.py].  Python integers
    are [Z]; Python lists are [list]; tensors of shape [[batch, n, 1]] are
    lists of rows; exceptions are an explicit result type; generators are
    finite traces of yields closed by exhaustion or by an exception. *)

From Stdlib Require Import ZArith QArith Qround Lia String Ascii SpecFloat.
From stdpp Require Import base option list sorting strings pretty.

Local Open Scope Z_scope.

(** ** Exceptions and the result of a call *)

Inductive exn : Type :=
  | StopIteration
  | AssertionError
  | IndexError
  | ValueError
  | ZeroDivisionError
  | InvalidArgumentError.

Inductive result (A : Type) : Type :=
  | Ok (a : A)
  | Raise (e : exn).
Arguments Ok {A} a.
Arguments Raise {A} e.

#[global] Instance result_ret : MRet result := λ A a, Ok a.
#[global] Instance result_bind : MBind result := λ A B f m,
  match m with
  | Ok a => f a
  | Raise e => Raise e
  end.
#[global] Instance result_fmap : FMap result := λ A B f m,
  match m with
  | Ok a => Ok (f a)
  | Raise e => Raise e
  end.

(** ** Python numbers

    The temperature code computes on Python numbers (ints and IEEE doubles
    mixed).  The operations it uses are an interface; every theorem below
    holds for any interpretation of it.  [Q] with exact arithmetic is the
    instance used to run the code on concrete inputs: on the dyadic values
    used there, double arithmetic is exact as well.  [Double] below is the
    arithmetic of the program itself, IEEE 754 binary64. *)

Class PyNum (F : Type) : Type := {
  of_int : Z → F;
  num_add : F → F → F;
  num_sub : F → F → F;
  num_mul : F → F → F;
  num_div : F → F → F;          (* [a / b] for [b] that is not zero *)
  num_is_zero : F → bool;
  num_int : F → Z;              (* [int(x)]: truncation toward zero *)
  num_round : F → Z             (* [round(x)]: nearest, ties to even *)
}.

Definition Qint (q : Q) : Z := Z.quot (Qnum q) (Z.pos (Qden q)).

Definition Qround_even (q : Q) : Z :=
  let f := Qfloor q in
  match Qcompare (q - inject_Z f) (1 # 2) with
  | Lt => f
  | Gt => f + 1
  | Eq => if Z.even f then f else f + 1
  end.

#[global] Instance Q_PyNum : PyNum Q := {|
  of_int := inject_Z;
  num_add := Qplus;
  num_sub := Qminus;
  num_mul := Qmult;
  num_div := Qdiv;
  num_is_zero := λ q, Z.eqb (Qnum q) 0;
  num_int := Qint;
  num_round := Qround_even
|}.

(** Python's [float] is the IEEE 754 binary64 format: 53 bits of
    precision, every operation rounded to nearest, ties to even.  An [int]
    operand of a mixed operation is converted first; the conversion is
    exact below [2^53].  [int(x)] and [round(x)] are exact on the value of
    the double; they raise on an infinity or a NaN, which no finite input
    used below produces, and are given the value 0 there. *)
Module Double.

Definition prec : Z := 53.
Definition emax : Z := 1024.

Definition of_int (z : Z) : spec_float := binary_normalize prec emax z 0 false.

Definition is_zero (x : spec_float) : bool :=
  match x with
  | S754_zero _ => true
  | _ => false
  end.

(** [int(x)]: the integer part of [m * 2^e]. *)
Definition trunc (x : spec_float) : Z :=
  match x with
  | S754_finite s m e =>
      cond_Zopp s (if 0 <=? e then Z.pos m * 2 ^ e else Z.pos m `div` 2 ^ (- e))
  | _ => 0
  end.

(** [round(x)]: the nearest integer to [m * 2^e], a tie going to the even
    one. *)
Definition round_even (x : spec_float) : Z :=
  match x with
  | S754_finite s m e =>
      cond_Zopp s
        (if 0 <=? e then Z.pos m * 2 ^ e
         else
           let d := 2 ^ (- e) in
           let q := Z.pos m `div` d in
           match 2 * (Z.pos m `mod` d) ?= d with
           | Lt => q
           | Gt => q + 1
           | Eq => if Z.even q then q else q + 1
           end)
  | _ => 0
  end.

(** The double a decimal literal with the value [n / d] denotes: the
    double nearest to the quotient ([n] and [d] below [2^53]). *)
Definition decimal (n d : Z) : spec_float := SFdiv prec emax (of_int n) (of_int d).

(** The rational a double stands for. *)
Definition value (x : spec_float) : Q :=
  match x with
  | S754_finite s m e =>
      if 0 <=? e then inject_Z (cond_Zopp s (Z.pos m * 2 ^ e))
      else Qmake (cond_Zopp s (Z.pos m)) (Z.to_pos (2 ^ (- e)))
  | _ => 0%Q
  end.

End Double.

#[global] Instance Double_PyNum : PyNum spec_float := {|
  of_int := Double.of_int;
  num_add := SFadd Double.prec Double.emax;
  num_sub := SFsub Double.prec Double.emax;
  num_mul := SFmul Double.prec Double.emax;
  num_div := SFdiv Double.prec Double.emax;
  num_is_zero := Double.is_zero;
  num_int := Double.trunc;
  num_round := Double.round_even
|}.

(** [a / b], raising [ZeroDivisionError] on a zero divisor. *)
Definition py_div `{PyNum F} (a b : F) : result F :=
  if num_is_zero b then Raise ZeroDivisionError else Ok (num_div a b).

(** [a // b] on integers. *)
Definition floordiv (a b : Z) : result Z :=
  if b =? 0 then Raise ZeroDivisionError else Ok (a `div` b).

(** ** Python sequence operations *)

(** A slice bound [i] of a sequence of length [len], as Python clamps it. *)
Definition slice_bound (len i : Z) : Z :=
  if i <? 0 then Z.max 0 (i + len) else Z.min i len.

(** [l[lo:hi]]; a missing bound is [None]. *)
Definition py_slice {A} (lo hi : option Z) (l : list A) : list A :=
  let len := Z.of_nat (length l) in
  let a := slice_bound len (default 0 lo) in
  let b := slice_bound len (default len hi) in
  take (Z.to_nat (b - a)) (drop (Z.to_nat a) l).

(** [l[i]], with negative indices counted from the end. *)
Definition py_index {A} (l : list A) (i : Z) : result A :=
  let len := Z.of_nat (length l) in
  let j := if i <? 0 then i + len else i in
  if (j <? 0) || (len <=? j) then Raise IndexError
  else match l !! Z.to_nat j with
       | Some a => Ok a
       | None => Raise IndexError
       end.

(** ** generate.py: parsing the temperature specification *)

Section Temperature.
Context {F : Type} `{PyNum F}.

(** What [ast.literal_eval] gives for a well-formed raw temperature: a
    number, or a pair [(xs, ys)] of control-point lists ([t[0]], [t[1]]). *)
Inductive literal : Type :=
  | LNum (v : F)
  | LCurve (xs ys : list F).

(** A parsed entry: the number itself, or [[parsed_xs, ys]]. *)
Inductive tspec : Type :=
  | Const (v : F)
  | Curve (xs : list Z) (ys : list F).

Definition parse_temperature_vector (tvect : list F) (total_samps : Z) : list Z :=
  let fn := λ x, num_int (num_mul x (of_int total_samps)) in
  let parsed := fn <$> tvect in
  merge_sort Z.le parsed.

(** The [while len(temperature) < num_seqs] loop; [fuel] bounds the
    number of iterations. *)
Fixpoint fill_loop (fuel : nat) (num_seqs : Z) (last_val : tspec)
    (temperature : list tspec) : list tspec :=
  match fuel with
  | O => temperature
  | S fuel' =>
      if Z.of_nat (length temperature) <? num_seqs
      then fill_loop fuel' num_seqs last_val (temperature ++ [last_val])
      else temperature
  end.

Definition parse_literal (total_samps : Z) (t : literal) : tspec :=
  match t with
  | LNum v => Const v
  | LCurve xs ys => Curve (parse_temperature_vector xs total_samps) ys
  end.

Definition parse_temperature (temperature : list literal) (num_seqs total_samps : Z)
    : result (list tspec) :=
  let temperature := parse_literal total_samps <$> temperature in
  if 1 <? num_seqs then
    if Z.of_nat (length temperature) <? num_seqs then
      last_val ← py_index temperature (-1);
      Ok (fill_loop (Z.to_nat num_seqs) num_seqs last_val temperature)
    else if num_seqs <? Z.of_nat (length temperature) then
      Ok (py_slice None (Some num_seqs) temperature)
    else Ok temperature
  else Ok temperature.

End Temperature.

Arguments literal F : clear implicits.
Arguments tspec F : clear implicits.

(** ** Generators

    A generator object is the trace it has still to produce: a finite run
    of yields closed by exhaustion or by the exception its body raises.
    [next] pulls one element. *)

Inductive gen (A : Type) : Type :=
  | Yield (a : A) (rest : gen A)
  | Exhausted
  | Fails (e : exn).
Arguments Yield {A} a rest.
Arguments Exhausted {A}.
Arguments Fails {A} e.

Definition next {A} (g : gen A) : result (A * gen A) :=
  match g with
  | Yield a rest => Ok (a, rest)
  | Exhausted => Raise StopIteration
  | Fails e => Raise e
  end.

(** The elements a generator yields before it stops. *)
Fixpoint yields {A} (g : gen A) : list A :=
  match g with
  | Yield a rest => a :: yields rest
  | Exhausted | Fails _ => []
  end.

(** How a generator ends: [None] on plain exhaustion. *)
Fixpoint ending {A} (g : gen A) : option exn :=
  match g with
  | Yield _ rest => ending rest
  | Exhausted => None
  | Fails e => Some e
  end.

(** [len(range(lo, hi))]. *)
Definition range_len (lo hi : Z) : nat := Z.to_nat (hi - lo).

(** ** generate.py: the per-frame temperature stream *)

Section Schedule.
Context {F : Type} `{PyNum F}.

(** The inner [for _ in range(xi, xi + round(xn))] loop of [interpolgen],
    followed by [rest], the trace of the remaining segments. *)
Fixpoint ramp (n : nat) (dx dy cx cy : F) (rest : gen (F * F)) : gen (F * F) :=
  match n with
  | O => rest
  | S n' =>
      let cx := num_add cx dx in
      let cy := num_add cy dy in
      Yield (cx, cy) (ramp n' dx dy cx cy rest)
  end.

(** The outer loop of [interpolgen] over the zipped control points. *)
Fixpoint interpol_segments (dx : F) (pairs : list ((Z * Z) * (F * F))) : gen (F * F) :=
  match pairs with
  | [] => Exhausted
  | ((xi, xj), (yi, yj)) :: pairs' =>
      let xdiff := xj - xi in
      let ydiff := num_sub yj yi in
      match xn ← py_div (of_int xdiff) dx; dy ← py_div ydiff xn; Ok (xn, dy) with
      | Raise e => Fails e
      | Ok (xn, dy) =>
          let cx := num_sub (of_int xi) dx in
          let cy := num_sub yi dy in
          ramp (range_len xi (xi + num_round xn)) dx dy cx cy
               (interpol_segments dx pairs')
      end
  end.

Definition interpolgen (nsamps : Z) (xpoints : list Z) (ypoints : list F) : gen (F * F) :=
  match last ← py_index xpoints (-1);
        if nsamps =? 0 then Raise ZeroDivisionError
        else Ok (num_div (of_int last) (of_int nsamps)) with
  | Raise e => Fails e
  | Ok dx =>
      interpol_segments dx
        (zip (zip xpoints (tail xpoints)) (zip ypoints (tail ypoints)))
  end.

(** An entry of [temps]: a number, or a live interpolation generator. *)
Inductive tsource : Type :=
  | SConst (v : F)
  | SGen (g : gen (F * F)).

Definition make_source (nsamps : Z) (t : tspec F) : tsource :=
  match t with
  | Const v => SConst v
  | Curve xs ys => SGen (interpolgen nsamps xs ys)
  end.

(** One evaluation of [[[t] if ... else [next(t)[1]] for t in temps]]:
    the vector of this frame and the advanced generators. *)
Fixpoint pull (temps : list tsource) : result (list F * list tsource) :=
  match temps with
  | [] => Ok ([], [])
  | SConst v :: temps' =>
      '(out, rest) ← pull temps';
      Ok (v :: out, SConst v :: rest)
  | SGen g :: temps' =>
      '(p, g') ← next g;
      '(out, rest) ← pull temps';
      Ok (p.2 :: out, SGen g' :: rest)
  end.

(** The [for _ in range(0, nsamps)] loop of [get_temperature]. *)
Fixpoint temperature_loop (n : nat) (temps : list tsource) : gen (list F) :=
  match n with
  | O => Exhausted
  | S n' =>
      match pull temps with
      | Ok (out, temps') => Yield out (temperature_loop n' temps')
      | Raise StopIteration => Exhausted
      | Raise e => Fails e
      end
  end.

Definition get_temperature (parsed_temp : list (tspec F)) (nsamps : Z) : gen (list F) :=
  let temps := make_source nsamps <$> parsed_temp in
  temperature_loop (range_len 0 nsamps) temps.

End Schedule.

Arguments tsource F : clear implicits.

(** ** Strings *)

(** [s.split(sep)] for a non-empty [sep]: [cur] is the piece read so far
    (reversed), [skip] the characters of a matched separator still to pass. *)
Fixpoint split_go (sep : string) (skip : nat) (cur : string) (s : string) : list string :=
  match s with
  | EmptyString => [String.rev cur]
  | String c s' =>
      match skip with
      | S k => split_go sep k cur s'
      | O =>
          if String.prefix sep s
          then String.rev cur :: split_go sep (String.length sep - 1) EmptyString s'
          else split_go sep 0 (String c cur) s'
      end
  end.

Definition py_split (s sep : string) : list string := split_go sep 0 EmptyString s.

(** [', '.join(l)]. *)
Fixpoint join_comma (l : list string) : string :=
  match l with
  | [] => EmptyString
  | [a] => a
  | a :: l' => a +:+ ", " +:+ join_comma l'
  end.

(** ** Tensors of shape [[batch, n, 1]]: one row of codes per sequence *)

Definition tensor : Type := list (list Z).

(** [np.full((rows, cols, 1), v)]. *)
Definition np_full (rows cols : Z) (v : Z) : result tensor :=
  if (rows <? 0) || (cols <? 0) then Raise ValueError
  else Ok (replicate (Z.to_nat rows) (replicate (Z.to_nat cols) v)).

(** [a[:, :cols, :] = value] for [a] of shape [[rows, cols, 1]] and [value]
    of shape [[k, 1]]: NumPy broadcasts [value] over the rows, and over the
    columns when [k = 1]; any other [k] but [cols] is a shape error. *)
Definition assign_frame (rows cols : Z) (value : list Z) : result tensor :=
  if Z.of_nat (length value) =? cols then Ok (replicate (Z.to_nat rows) value)
  else match value with
       | [v] => Ok (replicate (Z.to_nat rows) (replicate (Z.to_nat cols) v))
       | _ => Raise ValueError
       end.

(** [tf.concat(ts, axis=1)]: the tensors must agree on the batch axis. *)
Fixpoint concat_rows {A} (acc : list (list A)) (ts : list (list (list A)))
    : result (list (list A)) :=
  match ts with
  | [] => Ok acc
  | t :: ts' =>
      if Nat.eqb (length t) (length acc)
      then concat_rows (zip_with app acc t) ts'
      else Raise InvalidArgumentError
  end.

Definition tf_concat {A} (ts : list (list (list A))) : result (list (list A)) :=
  match ts with
  | [] => Raise ValueError
  | t :: ts' => concat_rows t ts'
  end.

(** [t[0]] on a tensor. *)
Definition first_row {A} (t : list (list A)) : result (list A) :=
  match t with
  | [] => Raise InvalidArgumentError
  | r :: _ => Ok r
  end.

(** [t[i]] on a tensor, for the [i >= 0] of a [range]. *)
Definition tensor_row (t : tensor) (i : Z) : result (list Z) :=
  match t !! Z.to_nat i with
  | Some row => if i <? 0 then Raise InvalidArgumentError else Ok row
  | None => Raise InvalidArgumentError
  end.

(** Every row of [t] has [c] entries. *)
Definition width {A} (c : nat) (t : list (list A)) : Prop :=
  Forall (λ row, length row = c) t.

(** ** generate.py: the generation driver *)

Section Driver.
Context {F : Type} `{PyNum F}.

(** The collaborators that are not part of these sources: audio samples
    and the codec of the [samplernn] package, taken per sample as the
    spec describes it (section 4.2); the model as an opaque stateful
    frame stepper (section 6); the rendering of a number in an f-string. *)
Variable sample : Type.
Variable qtype : Type.
Variable quantize_sample : qtype → Z → sample → Z.
Variable dequantize_sample : qtype → Z → Z → sample.
Variable model_state : Type.
Variable config : Type.
Variable num_str : F → string.

Record SampleRNN : Type := {
  batch_size : Z;
  big_frame_size : Z;
  q_type : qtype;
  q_levels : Z;
  rnn : model_state
}.

(** [SampleRNN(...)], the warm-up call and [load_weights]. *)
Variable build_model : Z → config → string → SampleRNN.
(** [model(frame, training=False, temperature=t)]: the new state and the
    frame produced. *)
Variable advance : SampleRNN → tensor → list F → model_state * tensor.

(** Modelled from the spec: [quantize] of the [samplernn] package is not
    among the sources.  The spec (section 4.2) has it map floating samples
    to integer codes, deterministically; it is taken sample by sample, for
    any per-sample code [quantize_sample]. *)
Definition quantize (m : SampleRNN) (a : list sample) : list Z :=
  quantize_sample (q_type m) (q_levels m) <$> a.

(** Modelled from the spec: [dequantize] of the [samplernn] package is not
    among the sources; the inverse direction of [quantize], sample by
    sample. *)
Definition dequantize (m : SampleRNN) (a : list Z) : list sample :=
  dequantize_sample (q_type m) (q_levels m) <$> a.

(** The constructor is called with [batch_size = num_seqs]. *)
Definition create_inference_model (ckpt_path : string) (num_seqs : Z) (cfg : config)
    : SampleRNN :=
  let m := build_model num_seqs cfg ckpt_path in
  {| batch_size := num_seqs; big_frame_size := big_frame_size m;
     q_type := q_type m; q_levels := q_levels m; rnn := rnn m |}.

Definition set_rnn (m : SampleRNN) (s : model_state) : SampleRNN :=
  {| batch_size := batch_size m; big_frame_size := big_frame_size m;
     q_type := q_type m; q_levels := q_levels m; rnn := s |}.

(** [audio] is what [librosa.load] decoded from the seed path. *)
Definition load_seed_audio (audio : list sample) (offset length : Z)
    : result (list sample) :=
  if offset + length <=? Z.of_nat (List.length audio)
  then Ok (py_slice (Some offset) (Some (offset + length)) audio)
  else Raise AssertionError.

(** *** The driver's effects: the model's state and the files written *)

Record world : Type := {
  w_rnn : model_state;
  w_files : list (string * list sample)
}.

Definition io (A : Type) : Type := world → world * result A.

#[local] Instance io_ret : MRet io := λ A a w, (w, Ok a).
#[local] Instance io_bind : MBind io := λ A B f c w,
  match c w with
  | (w', Ok a) => f a w'
  | (w', Raise e) => (w', Raise e)
  end.

Definition lift {A} (r : result A) : io A := λ w, (w, r).

Definition call_model (m : SampleRNN) (frame : tensor) (t : list F) : io tensor :=
  λ w, let '(s, out) := advance (set_rnn m (w_rnn w)) frame t in
       ({| w_rnn := s; w_files := w_files w |}, Ok out).

Definition write_wav (file_name : string) (audio : list sample) : io unit :=
  λ w, ({| w_rnn := w_rnn w; w_files := w_files w ++ [(file_name, audio)] |}, Ok ()).

(** The STEPPING loop, [for i in range(0, num_frames)], from index [i]
    with [n] iterations to go.  Progress printing has no effect. *)
Fixpoint stepping (n : nat) (i : Z) (m : SampleRNN) (samples : list tensor)
    (temperature : gen (list F)) : io (list tensor) :=
  match n with
  | O => mret samples
  | S n' =>
      ctx ← lift (py_index samples i);
      match next temperature with
      | Raise StopIteration => mret samples
      | Raise e => lift (Raise e)
      | Ok (t, temperature') =>
          frame_samples ← call_model m ctx t;
          stepping n' (i + 1) m (samples ++ [frame_samples]) temperature'
      end
  end.

(** The reference run the stepping loop is compared with: the model is
    advanced once per temperature vector of [ts], in order, each call on
    the frame before; the result is its last state and the frames. *)
Fixpoint advance_all (m : SampleRNN) (s : model_state) (ctx : tensor)
    (ts : list (list F)) : model_state * list tensor :=
  match ts with
  | [] => (s, [])
  | t :: ts' =>
      let '(s', frame) := advance (set_rnn m s) ctx t in
      let '(s'', frames) := advance_all m s' frame ts' in
      (s'', frame :: frames)
  end.

(** The temperature shown in a file name: [t] for a number, [t[1]] for a
    curve. *)
Inductive label : Type :=
  | LblNum (v : F)
  | LblList (ys : list F).

Definition name_label (t : tspec F) : label :=
  match t with
  | Const v => LblNum v
  | Curve _ ys => LblList ys
  end.

Definition label_str (l : label) : string :=
  match l with
  | LblNum v => num_str v
  | LblList ys => "[" +:+ join_comma (num_str <$> ys) +:+ "]"
  end.

(** The saving loop, [for i in range(model.batch_size)]. *)
Fixpoint save_loop (n : nat) (i : Z) (m : SampleRNN) (path : string)
    (samples : tensor) (temperature : list label) : io unit :=
  match n with
  | O => mret ()
  | S n' =>
      row ← lift (tensor_row samples i);
      let seq := py_slice (Some (big_frame_size m)) None row in
      let audio := dequantize m seq in
      let file_name := if 1 <? batch_size m
                       then path +:+ "(" +:+ pretty i +:+ ")" else path in
      t ← lift (py_index temperature i);
      let file_name := file_name +:+ "_t=" +:+ label_str t +:+ ".wav" in
      _ ← write_wav file_name audio;
      save_loop n' (i + 1) m path samples temperature
  end.

(** SEEDING: the initial frame. *)
Definition seeding (m : SampleRNN) (seed : option (list sample)) (seed_offset : Z)
    : result tensor :=
  let q_zero := q_levels m `div` 2 in
  init_samples ← np_full (batch_size m) (big_frame_size m) q_zero;
  match seed with
  | Some audio =>
      seed_audio ← load_seed_audio audio seed_offset (big_frame_size m);
      assign_frame (batch_size m) (big_frame_size m) (quantize m seed_audio)
  | None => Ok init_samples
  end.

(** FINALIZE: concatenate, trim, name and write. *)
Definition finalize (m : SampleRNN) (path ckpt_path : string)
    (parsed_temps : list (tspec F)) (samples : list tensor) : io unit :=
  samples ← lift (tf_concat samples);
  let samples := py_slice (Some (big_frame_size m)) None <$> samples in
  epoch ← lift (py_index (py_split ckpt_path "/model.ckpt-") (-1));
  base ← lift (py_index (py_split path ".wav") 0);
  let path := base +:+ "_e=" +:+ epoch in
  let temperature := name_label <$> parsed_temps in
  save_loop (range_len 0 (batch_size m)) 0 m path samples temperature.

Definition generate_io (m : SampleRNN) (path ckpt_path : string) (num_seqs dur sample_rate : Z)
    (temperature : list (literal F)) (seed : option (list sample)) (seed_offset : Z)
    : io unit :=
  let num_samps := dur * sample_rate in
  init_samples ← lift (seeding m seed seed_offset);
  let samples := [init_samples] in
  num_frames ← lift (floordiv num_samps (big_frame_size m));
  parsed_temps ← lift (parse_temperature temperature num_seqs (dur * sample_rate));
  let temperature := get_temperature parsed_temps num_frames in
  samples ← stepping (range_len 0 num_frames) 0 m samples temperature;
  finalize m path ckpt_path parsed_temps samples.

(** What a call of [generate] leaves behind: the model's final state, the
    files written, and whether it returned or raised. *)
Definition generate (path ckpt_path : string) (cfg : config)
    (num_seqs dur sample_rate : Z) (temperature : list (literal F))
    (seed : option (list sample)) (seed_offset : Z) : world * result unit :=
  let model := create_inference_model ckpt_path num_seqs cfg in
  generate_io model path ckpt_path num_seqs dur sample_rate temperature seed seed_offset
    {| w_rnn := rnn model; w_files := [] |}.

End Driver.

Arguments batch_size {qtype model_state} _.
Arguments big_frame_size {qtype model_state} _.
Arguments q_type {qtype model_state} _.
Arguments q_levels {qtype model_state} _.
Arguments rnn {qtype model_state} _.
Arguments w_rnn {sample model_state} _.
Arguments w_files {sample model_state} _.
Arguments Build_world {sample model_state} _ _.
Arguments quantize {sample qtype} quantize_sample {model_state} m a.
Arguments dequantize {sample qtype} dequantize_sample {model_state} m a.
Arguments create_inference_model {qtype model_state config} build_model ckpt_path num_seqs cfg.
Arguments set_rnn {qtype model_state} m s.
Arguments load_seed_audio {sample} audio offset length.
Arguments lift {sample model_state A} r _.
Arguments call_model {F sample qtype model_state} advance m frame t _.
Arguments write_wav {sample model_state} file_name audio _.
Arguments advance_all {F qtype model_state} advance m s ctx ts.
Arguments stepping {F sample qtype model_state} advance n i m samples temperature _.
Arguments save_loop {F sample qtype} dequantize_sample {model_state} num_str n i m path samples temperature _.
Arguments seeding {sample qtype} quantize_sample {model_state} m seed seed_offset.
Arguments finalize {F sample qtype} dequantize_sample {model_state} num_str m path ckpt_path parsed_temps samples _.
Arguments generate_io {F H sample qtype} quantize_sample dequantize_sample {model_state}
  num_str advance m path ckpt_path num_seqs dur sample_rate temperature seed seed_offset _.
Arguments generate {F H sample qtype} quantize_sample dequantize_sample {model_state config}
  num_str build_model advance path ckpt_path cfg num_seqs dur sample_rate temperature
  seed seed_offset.

(** ** dataset.py *)

(** [range(lo, hi, step)]. *)
Definition py_range (lo hi step : Z) : result (list Z) :=
  if step =? 0 then Raise ValueError
  else
    let n := if 0 <? step then (hi - lo + step - 1) `div` step
             else (lo - hi - step - 1) `div` (- step) in
    Ok ((λ k, lo + Z.of_nat k * step) <$> seq 0 (Z.to_nat n)).

Section Dataset.
Context {F : Type} `{PyNum F}.

(** Audio samples with their zero, the per-sample codec of the
    [samplernn] package (spec, section 4.2), and [random.shuffle]. *)
Variable sample : Type.
Variable zero : sample.
Variable qtype : Type.
Variable quantize_sample : qtype → Z → sample → Z.
Variable shuffle : list string → list string.

(** [files] is what [find_files(data_dir)] found. *)
Definition get_dataset_filenames_split (files : list string) (val_pcnt : F)
    : result (list string * list string) :=
  match files with
  | [] => Raise ValueError
  | _ =>
      let files := shuffle files in
      let val_start :=
        num_int (num_mul (num_sub (of_int 1) val_pcnt)
                         (of_int (Z.of_nat (length files)))) in
      Ok (py_slice None (Some val_start) files, py_slice (Some val_start) None files)
  end.

(** A batch of shape [[batch_size, n, 1]]: one row of samples per file. *)
Definition batch : Type := list (list sample).

(** [np.zeros([rows, cols, 1])]. *)
Definition np_zeros (rows cols : Z) : result batch :=
  if (rows <? 0) || (cols <? 0) then Raise ValueError
  else Ok (replicate (Z.to_nat rows) (replicate (Z.to_nat cols) zero)).

(** [int(np.floor(len(batch[0]) / float(seq_len)))] is the floored
    quotient of the two integers. *)
Definition pad_batch (b : batch) (batch_size seq_len overlap : Z) : result batch :=
  row0 ← first_row b;
  q ← floordiv (Z.of_nat (length row0)) seq_len;
  let num_samps := q * seq_len in
  zeros ← np_zeros batch_size overlap;
  tf_concat [zeros; py_slice None (Some num_samps) <$> b].

(** The window at step position [i]: the body of the inner loop of
    [get_subseq].  [quantize] is applied sample by sample, as in the
    driver. *)
Definition window_at (b : batch) (seq_len overlap : Z) (q_type : qtype) (q_levels : Z)
    (i : Z) : tensor * tensor :=
  let x := (λ row, quantize_sample q_type q_levels <$>
                     py_slice (Some (i - overlap)) (Some (i + seq_len)) row) <$> b in
  let y := py_slice (Some overlap) (Some (overlap + seq_len)) <$> x in
  (x, y).

(** The windows of one batch: the inner loop of [get_subseq]. *)
Definition window_batch (b : batch) (seq_len overlap : Z) (q_type : qtype) (q_levels : Z)
    : result (list (tensor * tensor)) :=
  row0 ← first_row b;
  let num_samps := Z.of_nat (length row0) in
  starts ← py_range overlap num_samps seq_len;
  Ok (fmap (M:=list) (window_at b seq_len overlap q_type q_levels) starts).

Fixpoint get_subseq (dataset : list batch) (seq_len overlap : Z)
    (q_type : qtype) (q_levels : Z) : gen (tensor * tensor) :=
  match dataset with
  | [] => Exhausted
  | b :: dataset' =>
      match window_batch b seq_len overlap q_type q_levels with
      | Raise e => Fails e
      | Ok ws => foldr Yield (get_subseq dataset' seq_len overlap q_type q_levels) ws
      end
  end.

End Dataset.

Arguments get_dataset_filenames_split {F H} shuffle files val_pcnt.
Arguments np_zeros {sample} zero rows cols.
Arguments pad_batch {sample} zero b batch_size seq_len overlap.
Arguments window_at {sample qtype} quantize_sample b seq_len overlap q_type q_levels i.
Arguments window_batch {sample qtype} quantize_sample b seq_len overlap q_type q_levels.
Arguments get_subseq {sample qtype} quantize_sample dataset seq_len overlap q_type q_levels.

(** ** A deterministic stub model

    The stub of the spec's end-to-end test: it always emits the quantized
    midpoint symbol, one frame of [big_frame_size] samples per sequence and
    step, and counts its calls in its state.  Samples are their own codes;
    the configuration is the big frame size. *)

Module Stub.

Definition quantize_sample (_ : unit) (_ : Z) (s : Z) : Z := s.
Definition dequantize_sample (_ : unit) (_ : Z) (c : Z) : Z := c.

Definition build_model (num_seqs : Z) (bfs : Z) (_ : string) : SampleRNN unit nat :=
  {| batch_size := num_seqs; big_frame_size := bfs; q_type := ();
     q_levels := 256; rnn := O |}.

Definition advance {F} (m : SampleRNN unit nat) (_ : tensor) (_ : list F)
    : nat * tensor :=
  (S (rnn m),
   replicate (Z.to_nat (batch_size m))
             (replicate (Z.to_nat (big_frame_size m)) (q_levels m `div` 2))).

(** A rendering of a rational as [numerator/denominator]. *)
Definition ratio_str (q : Q) : string :=
  pretty (Qnum q) +:+ "/" +:+ pretty (Z.pos (Qden q)).

Definition generate :=
  generate (F:=Q) quantize_sample dequantize_sample ratio_str build_model advance.

End Stub.


(** * Properties *)

(** ** Slices and indexing *)

Lemma slice_bound_nonneg len i : 0 ≤ i → slice_bound len i = Z.min i len.
Proof. intros. unfold slice_bound. by rewrite (proj2 (Z.ltb_ge i 0)) by lia. Qed.


Section SliceFacts.
Context {A : Type}.
Implicit Types l : list A.

Lemma py_slice_to_nonneg l k :
  0 ≤ k → py_slice None (Some k) l = take (Z.to_nat k) l.
Proof.
  intros Hk. unfold py_slice. cbv [from_option id].
  rewrite !slice_bound_nonneg by lia.
  rewrite (Z.min_l 0) by lia. rewrite Z.sub_0_r. change (Z.to_nat 0) with 0%nat; rewrite drop_0.
  destruct (Z.le_ge_cases k (Z.of_nat (length l))).
  - by rewrite Z.min_l by lia.
  - rewrite Z.min_r by lia. rewrite Nat2Z.id.
    rewrite !take_ge; [done | lia | lia].
Qed.

Lemma py_slice_from_nonneg l k :
  0 ≤ k → py_slice (Some k) None l = drop (Z.to_nat k) l.
Proof.
  intros Hk. unfold py_slice. cbv [from_option id].
  rewrite !slice_bound_nonneg by lia.
  rewrite take_ge by (rewrite length_drop; lia).
  destruct (Z.le_ge_cases k (Z.of_nat (length l))).
  - by rewrite Z.min_l by lia.
  - rewrite Z.min_r by lia. by rewrite !drop_ge by lia.
Qed.

Lemma py_slice_window l a b :
  0 ≤ a → a ≤ b → b ≤ Z.of_nat (length l) →
  py_slice (Some a) (Some b) l = take (Z.to_nat (b - a)) (drop (Z.to_nat a) l).
Proof.
  intros Ha Hab Hb. unfold py_slice. cbv [from_option id].
  rewrite !slice_bound_nonneg by lia.
  by rewrite !Z.min_l by lia.
Qed.


Lemma py_index_nat l (i : nat) :
  py_index l (Z.of_nat i) =
  match l !! i with Some a => Ok a | None => Raise IndexError end.
Proof.
  unfold py_index. cbv zeta.
  destruct (Z.ltb_spec (Z.of_nat i) 0); [lia|].
  destruct (Z.ltb_spec (Z.of_nat i) 0); [lia|]. cbn [orb].
  rewrite Nat2Z.id.
  destruct (Z.leb_spec (Z.of_nat (length l)) (Z.of_nat i)); [|done].
  by rewrite lookup_ge_None_2 by lia.
Qed.

Lemma py_index_last l x : py_index (l ++ [x]) (-1) = Ok x.
Proof.
  unfold py_index. cbv zeta. rewrite length_app. cbn [length].
  change (-1 <? 0) with true. cbv iota.
  replace (-1 + Z.of_nat (length l + 1)) with (Z.of_nat (length l)) by lia.
  destruct (Z.ltb_spec (Z.of_nat (length l)) 0); [lia|].
  destruct (Z.leb_spec (Z.of_nat (length l + 1)) (Z.of_nat (length l))); [lia|].
  cbn [orb]. rewrite Nat2Z.id. by rewrite lookup_app_r, Nat.sub_diag.
Qed.

Lemma py_index_nil i : py_index (@nil A) i = Raise IndexError.
Proof.
  unfold py_index. cbv zeta. cbn [length]. change (Z.of_nat 0) with 0.
  destruct (i <? 0) eqn:E1.
  - rewrite Z.add_0_r, E1. done.
  - rewrite E1. cbn [orb]. destruct (Z.leb_spec 0 i); [done|].
    apply Z.ltb_ge in E1. lia.
Qed.

Lemma py_index_nonneg l (i : nat) x :
  l !! i = Some x → py_index l (Z.of_nat i) = Ok x.
Proof. intros Hi. by rewrite py_index_nat, Hi. Qed.

Lemma py_index_Ok l i x :
  py_index l i = Ok x → 0 ≤ i → l !! Z.to_nat i = Some x.
Proof.
  intros Hi Hnn. rewrite <- (Z2Nat.id i), py_index_nat in Hi by lia.
  destruct (l !! Z.to_nat i); by simplify_eq.
Qed.

End SliceFacts.

(** ** Parsing the temperature specification *)

Section ParseFacts.
Context {F : Type} `{PyNum F}.
Implicit Types temperature : list (tspec F).

(** The filling loop appends [last_val] until the list has [num_seqs]
    entries; [fuel] is enough as soon as it covers the gap. *)
Lemma fill_loop_spec fuel num_seqs (last_val : tspec F) temperature :
  (Z.to_nat num_seqs - length temperature ≤ fuel)%nat →
  fill_loop fuel num_seqs last_val temperature =
  temperature ++ replicate (Z.to_nat num_seqs - length temperature) last_val.
Proof.
  revert temperature. induction fuel as [|fuel IH]; intros temperature Hfuel.
  - replace (Z.to_nat num_seqs - length temperature)%nat with 0%nat by lia.
    cbn. by rewrite app_nil_r.
  - cbn [fill_loop]. destruct (Z.ltb_spec (Z.of_nat (length temperature)) num_seqs).
    + rewrite IH by (rewrite length_app; cbn; lia).
      rewrite length_app. cbn [length]. rewrite <- app_assoc. f_equal.
      replace (Z.to_nat num_seqs - length temperature)%nat
        with (S (Z.to_nat num_seqs - (length temperature + 1)))%nat by lia.
      done.
    + replace (Z.to_nat num_seqs - length temperature)%nat with 0%nat by lia.
      cbn. by rewrite app_nil_r.
Qed.

Lemma parse_temperature_single (temperature : list (literal F)) num_seqs total_samps :
  num_seqs ≤ 1 →
  parse_temperature temperature num_seqs total_samps =
  Ok (parse_literal total_samps <$> temperature).
Proof.
  intros Hn. unfold parse_temperature.
  by destruct (Z.ltb_spec 1 num_seqs); [lia|].
Qed.

Lemma parse_temperature_many (temperature : list (literal F)) num_seqs total_samps :
  temperature ≠ [] → 1 < num_seqs →
  let parsed := parse_literal total_samps <$> temperature in
  ∃ ps, parse_temperature temperature num_seqs total_samps = Ok ps
    ∧ length ps = Z.to_nat num_seqs
    ∧ ((length parsed ≤ Z.to_nat num_seqs)%nat →
         ∃ last_val, last parsed = Some last_val
           ∧ ps = parsed ++ replicate (Z.to_nat num_seqs - length parsed) last_val)
    ∧ ((Z.to_nat num_seqs ≤ length parsed)%nat → ps = take (Z.to_nat num_seqs) parsed).
Proof.
  intros Hne Hn parsed. unfold parse_temperature. cbv zeta. fold parsed.
  assert (parsed ≠ []) as Hpne by (subst parsed; by destruct temperature).
  clearbody parsed.
  destruct (Z.ltb_spec 1 num_seqs); [|lia].
  destruct (Z.ltb_spec (Z.of_nat (length parsed)) num_seqs) as [Hlt|Hge].
  - destruct (exists_last Hpne) as (front & last_val & Hsplit).
    assert (py_index parsed (-1) = Ok last_val) as ->
      by (rewrite Hsplit; apply py_index_last).
    cbn [mbind result_bind].
    rewrite fill_loop_spec by lia.
    eexists; split; [done|]. split; [|split].
    + rewrite length_app, length_replicate. lia.
    + intros _. exists last_val. split; [|done].
      rewrite Hsplit. apply last_snoc.
    + intros Hle. lia.
  - destruct (Z.ltb_spec num_seqs (Z.of_nat (length parsed))) as [Hgt|Heq].
    + rewrite py_slice_to_nonneg by lia.
      eexists; split; [done|]. split; [|split].
      * rewrite length_take. lia.
      * intros Hle. lia.
      * done.
    + assert (length parsed = Z.to_nat num_seqs) as Hlen by lia.
      eexists; split; [done|]. split; [done|split].
      * intros _. destruct (exists_last Hpne) as (front & last_val & Hsplit).
        exists last_val. split; [rewrite Hsplit; apply last_snoc|].
        rewrite Hlen, Nat.sub_diag. cbn. by rewrite app_nil_r.
      * intros _. by rewrite take_ge by lia.
Qed.

End ParseFacts.

(** ** The temperature stream *)

Section ScheduleFacts.
Context {F : Type} `{PyNum F}.
Implicit Types temps : list (tsource F).

Lemma pull_consts (vs : list F) : pull (SConst <$> vs) = Ok (vs, SConst <$> vs).
Proof.
  induction vs as [|v vs IH]; [done|].
  cbn [fmap list_fmap pull]. fold (fmap (M:=list) (@SConst F) vs).
  by rewrite IH.
Qed.

Lemma temperature_loop_consts n (vs : list F) :
  yields (temperature_loop n (SConst <$> vs)) = replicate n vs
  ∧ ending (temperature_loop n (SConst <$> vs)) = None.
Proof.
  induction n as [|n [IHy IHe]]; [done|].
  cbn [temperature_loop]. rewrite pull_consts. cbn. by rewrite IHy.
Qed.

Lemma make_source_consts nsamps (vs : list F) :
  make_source nsamps <$> (Const <$> vs) = SConst <$> vs.
Proof. by rewrite <- list_fmap_compose. Qed.

(** A successful pull advances every generator by one yield. *)
Lemma pull_Ok_inv temps out temps' :
  pull temps = Ok (out, temps') →
  length out = length temps
  ∧ (∀ g, SGen g ∈ temps → ∃ a g', g = Yield a g' ∧ SGen g' ∈ temps')
  ∧ (∀ g', SGen g' ∈ temps' → ∃ a, SGen (Yield a g') ∈ temps).
Proof.
  revert out temps'. induction temps as [|s temps IH]; intros out temps' Hp.
  - cbn in Hp. simplify_eq. split; [done|]. split; intros g Hg; by apply elem_of_nil in Hg.
  - destruct s as [v|g0]; cbn [pull] in Hp.
    + destruct (pull temps) as [[out0 rest]|e] eqn:E; cbn in Hp; simplify_eq.
      destruct (IH _ _ eq_refl) as (Hlen & Hfw & Hbw).
      split; [cbn; by rewrite Hlen|]. split.
      * intros g Hg. apply elem_of_cons in Hg as [Hg|Hg]; [done|].
        destruct (Hfw g Hg) as (a & g' & -> & Hin).
        exists a, g'. split; [done|]. by apply elem_of_cons; right.
      * intros g' Hg. apply elem_of_cons in Hg as [Hg|Hg]; [done|].
        destruct (Hbw g' Hg) as (a & Hin). exists a. by apply elem_of_cons; right.
    + destruct g0 as [a0 g0'| |e0]; cbn in Hp; simplify_eq.
      destruct (pull temps) as [[out0 rest]|e] eqn:E; cbn in Hp; simplify_eq.
      destruct (IH _ _ eq_refl) as (Hlen & Hfw & Hbw).
      split; [cbn; by rewrite Hlen|]. split.
      * intros g Hg. apply elem_of_cons in Hg as [Hg|Hg].
        -- simplify_eq. exists a0, g0'. split; [done|]. apply elem_of_cons; by left.
        -- destruct (Hfw g Hg) as (a & g' & -> & Hin).
           exists a, g'. split; [done|]. by apply elem_of_cons; right.
      * intros g' Hg. apply elem_of_cons in Hg as [Hg|Hg].
        -- simplify_eq. exists a0. apply elem_of_cons; by left.
        -- destruct (Hbw g' Hg) as (a & Hin). exists a. by apply elem_of_cons; right.
Qed.

(** A pull raises what the [next] of one of its generators raised. *)
Lemma pull_Raise_inv temps e :
  pull temps = Raise e → ∃ g, SGen g ∈ temps ∧ next g = Raise e.
Proof.
  induction temps as [|s temps IH]; intros Hp; [done|].
  destruct s as [v|g0]; cbn [pull] in Hp.
  - destruct (pull temps) as [[out0 rest]|e'] eqn:E; cbn in Hp; simplify_eq.
    destruct (IH eq_refl) as (g & Hin & Hn). exists g. split; [|done].
    by apply elem_of_cons; right.
  - destruct (next g0) as [[p g0']|e'] eqn:En; cbn in Hp.
    + destruct (pull temps) as [[out0 rest]|e''] eqn:E; cbn in Hp; simplify_eq.
      destruct (IH eq_refl) as (g & Hin & Hn). exists g. split; [|done].
      by apply elem_of_cons; right.
    + simplify_eq. exists g0. split; [apply elem_of_cons; by left|done].
Qed.

(** First exhaustion wins: a stream that ends by exhaustion before [n]
    frames has stopped exactly when one of its generators ran out, and no
    generator is shorter than the stream. *)
Lemma temperature_loop_first_exhaustion n temps :
  (∀ g, SGen g ∈ temps → ending g ≠ Some StopIteration) →
  ending (temperature_loop n temps) = None →
  (length (yields (temperature_loop n temps)) < n)%nat →
  (∃ g, SGen g ∈ temps ∧ ending g = None
        ∧ length (yields g) = length (yields (temperature_loop n temps)))
  ∧ (∀ g, SGen g ∈ temps →
        (length (yields (temperature_loop n temps)) ≤ length (yields g))%nat).
Proof.
  revert temps. induction n as [|n IH]; intros temps Hns Hend Hlt; [cbn in Hlt; lia|].
  cbn [temperature_loop] in *.
  destruct (pull temps) as [[out temps']|e] eqn:Hp.
  - destruct (pull_Ok_inv _ _ _ Hp) as (_ & Hfw & Hbw).
    cbn [yields ending length] in *.
    destruct (IH temps') as ((g' & Hin' & He' & Hl') & Hall); [|done|lia|].
    { intros g' Hg'. destruct (Hbw g' Hg') as (a & Hin). apply (Hns _ Hin). }
    split.
    + destruct (Hbw g' Hin') as (a & Hin). exists (Yield a g').
      split; [done|]. split; [done|]. cbn. by rewrite Hl'.
    + intros g Hg. destruct (Hfw g Hg) as (a & g'' & -> & Hin'').
      cbn. specialize (Hall _ Hin''). lia.
  - destruct (pull_Raise_inv _ _ Hp) as (g & Hin & Hn).
    destruct e; cbn in Hend; try done.
    cbn [yields length]. split; [|intros; lia].
    exists g. split; [done|].
    destruct g as [a g'| |e]; cbn in Hn; simplify_eq; [done|].
    by destruct (Hns _ Hin).
Qed.

(** The generators of [interpolgen] end by exhaustion or by an arithmetic
    or index error of their body, never by a [StopIteration] of their own. *)
Lemma ramp_ending n dx dy cx cy (rest : gen (F * F)) :
  ending (ramp n dx dy cx cy rest) = ending rest.
Proof. revert cx cy. induction n as [|n IH]; intros cx cy; [done|]. cbn. apply IH. Qed.

Lemma ramp_yields n dx dy cx cy (rest : gen (F * F)) :
  length (yields (ramp n dx dy cx cy rest)) = (n + length (yields rest))%nat.
Proof.
  revert cx cy. induction n as [|n IH]; intros cx cy; [done|]. cbn. by rewrite IH.
Qed.

Lemma interpol_segments_ending dx pairs :
  ending (interpol_segments dx pairs) ≠ Some StopIteration.
Proof.
  induction pairs as [|[[xi xj] [yi yj]] pairs IH]; [done|].
  cbn [interpol_segments]. unfold py_div.
  destruct (num_is_zero dx); [done|]. cbn [mbind result_bind].
  destruct (num_is_zero _); [done|]. cbn [mbind result_bind].
  by rewrite ramp_ending.
Qed.

Lemma interpolgen_ending nsamps xpoints (ypoints : list F) :
  ending (interpolgen nsamps xpoints ypoints) ≠ Some StopIteration.
Proof.
  unfold interpolgen.
  destruct (py_index xpoints (-1)) as [last_x|e] eqn:E; cbn [mbind result_bind].
  - destruct (nsamps =? 0); [done|]. apply interpol_segments_ending.
  - unfold py_index in E. repeat case_match; by simplify_eq.
Qed.

(** The error a temperature stream ends with is the error one of its
    generators ends with. *)
Lemma temperature_loop_ending n temps e :
  ending (temperature_loop n temps) = Some e →
  ∃ g, SGen g ∈ temps ∧ ending g = Some e.
Proof.
  revert temps. induction n as [|n IH]; intros temps Hend; [done|].
  cbn [temperature_loop] in Hend.
  destruct (pull temps) as [[out temps']|e0] eqn:Hp.
  - destruct (pull_Ok_inv _ _ _ Hp) as (_ & _ & Hbw).
    cbn [ending] in Hend. destruct (IH _ Hend) as (g' & Hin' & He').
    destruct (Hbw g' Hin') as (a & Hin). by exists (Yield a g').
  - destruct (pull_Raise_inv _ _ Hp) as (g & Hin & Hn).
    exists g. split; [done|].
    destruct g as [a g'| |e1]; cbn in Hn; simplify_eq.
    all: cbn in Hend; first [done | destruct e0; cbn in Hend |- *; by simplify_eq].
Qed.

Lemma interpol_segments_ending_cases dx pairs e :
  ending (interpol_segments dx pairs) = Some e → e = ZeroDivisionError.
Proof.
  induction pairs as [|[[xi xj] [yi yj]] pairs IH]; [done|].
  cbn [interpol_segments]. unfold py_div.
  destruct (num_is_zero dx); [cbn; congruence|]. cbn [mbind result_bind].
  destruct (num_is_zero _); [cbn; congruence|]. cbn [mbind result_bind].
  by rewrite ramp_ending.
Qed.

Lemma interpolgen_ending_cases nsamps xpoints (ypoints : list F) e :
  ending (interpolgen nsamps xpoints ypoints) = Some e →
  e = IndexError ∨ e = ZeroDivisionError.
Proof.
  unfold interpolgen.
  destruct (py_index xpoints (-1)) as [last_x|e0] eqn:E; cbn [mbind result_bind].
  - destruct (nsamps =? 0); [cbn; intros; simplify_eq; by right|].
    intros He. right. by apply interpol_segments_ending_cases in He.
  - intros He. cbn in He. simplify_eq. left.
    unfold py_index in E. repeat case_match; by simplify_eq.
Qed.

Lemma get_temperature_ending_cases (parsed : list (tspec F)) nsamps e :
  ending (get_temperature parsed nsamps) = Some e →
  e = IndexError ∨ e = ZeroDivisionError.
Proof.
  intros He. apply temperature_loop_ending in He as (g & Hin & He).
  apply list_elem_of_fmap in Hin as (t & Heq & _).
  destruct t; cbn in Heq; simplify_eq. by apply interpolgen_ending_cases in He.
Qed.

Lemma make_source_ending nsamps (parsed : list (tspec F)) g :
  SGen g ∈ make_source nsamps <$> parsed → ending g ≠ Some StopIteration.
Proof.
  intros Hin. apply list_elem_of_fmap in Hin as (t & Heq & _).
  destruct t; cbn in Heq; simplify_eq. apply interpolgen_ending.
Qed.

End ScheduleFacts.

(** ** The stepping loop *)

Section DriverFacts.
Context {F : Type} `{PyNum F}.
Context {sample qtype model_state : Type}.
Variable quantize_sample : qtype → Z → sample → Z.
Variable dequantize_sample : qtype → Z → Z → sample.
Variable num_str : F → string.
Variable advance : SampleRNN qtype model_state → tensor → list F → model_state * tensor.
Implicit Types m : SampleRNN qtype model_state.
Implicit Types w : world sample model_state.

Lemma world_eta w : {| w_rnn := w_rnn w; w_files := w_files w |} = w.
Proof. by destruct w. Qed.

Lemma advance_all_length m s ctx ts :
  length (advance_all advance m s ctx ts).2 = length ts.
Proof.
  revert s ctx. induction ts as [|t ts IH]; intros s ctx; [done|].
  cbn [advance_all]. destruct (advance _ ctx t) as [s' frame].
  specialize (IH s' frame). destruct (advance_all advance m s' frame ts).
  cbn in *. by rewrite IH.
Qed.

(** The loop advances the model once per temperature vector it pulls, at
    most [n] of them, and keeps every frame: as long as the stream does not
    raise within those pulls, nothing is raised. *)
Lemma stepping_spec m n : ∀ g i samples ctx w,
  last samples = Some ctx →
  i = Z.of_nat (length samples) - 1 →
  ending g = None ∨ (n ≤ length (yields g))%nat →
  stepping advance n i m samples g w =
  ({| w_rnn := (advance_all advance m (w_rnn w) ctx (take n (yields g))).1;
      w_files := w_files w |},
   Ok (samples ++ (advance_all advance m (w_rnn w) ctx (take n (yields g))).2)).
Proof.
  induction n as [|n IH]; intros g i samples ctx w Hlast Hi Hg.
  - destruct w. cbn. by rewrite app_nil_r.
  - cbn [stepping]. unfold mbind, io_bind, lift.
    assert (py_index samples i = Ok ctx) as ->.
    { rewrite last_lookup in Hlast.
      pose proof (lookup_lt_Some _ _ _ Hlast).
      replace i with (Z.of_nat (pred (length samples))) by lia.
      by apply py_index_nonneg. }
    destruct g as [t g'| |e].
    + cbn [next yields take]. unfold call_model.
      cbn [advance_all].
      destruct (advance (set_rnn m (w_rnn w)) ctx t) as [s' frame] eqn:Ea.
      rewrite (IH g' (i + 1) (samples ++ [frame]) frame); cycle 1.
      { apply last_snoc. }
      { rewrite length_app. cbn. lia. }
      { destruct Hg as [Hg|Hg]; [by left|right; cbn in Hg; lia]. }
      cbn [w_rnn w_files].
      destruct (advance_all advance m s' frame (take n (yields g'))) as [s'' frames].
      cbn. by rewrite <- app_assoc.
    + destruct w. cbn. by rewrite app_nil_r.
    + destruct Hg as [Hg|Hg]; [done|cbn in Hg; lia].
Qed.

(** If the stream raises an error of its own after [k < n] vectors, the
    loop raises it, after [k] model calls. *)
Lemma stepping_fails m n : ∀ g i samples ctx w e,
  last samples = Some ctx →
  i = Z.of_nat (length samples) - 1 →
  ending g = Some e → e ≠ StopIteration → (length (yields g) < n)%nat →
  stepping advance n i m samples g w =
  ({| w_rnn := (advance_all advance m (w_rnn w) ctx (yields g)).1;
      w_files := w_files w |}, Raise e).
Proof.
  induction n as [|n IH]; intros g i samples ctx w e Hlast Hi Hend Hne Hlt; [lia|].
  cbn [stepping]. unfold mbind, io_bind, lift.
  assert (py_index samples i = Ok ctx) as ->.
  { rewrite last_lookup in Hlast.
    pose proof (lookup_lt_Some _ _ _ Hlast).
    replace i with (Z.of_nat (pred (length samples))) by lia.
    by apply py_index_nonneg. }
  destruct g as [t g'| |e'].
  - cbn [next yields]. unfold call_model. cbn [advance_all].
    destruct (advance (set_rnn m (w_rnn w)) ctx t) as [s' frame] eqn:Ea.
    rewrite (IH g' (i + 1) (samples ++ [frame]) frame _ e); cycle 1.
    { apply last_snoc. }
    { rewrite length_app. cbn. lia. }
    { done. }
    { done. }
    { cbn in Hlt. lia. }
    cbn [w_rnn w_files].
    by destruct (advance_all advance m s' frame (yields g')).
  - done.
  - cbn in Hend. simplify_eq. destruct w. cbn. by destruct e.
Qed.

End DriverFacts.

(** ** Tensors: shapes under concatenation and seeding *)

Lemma width_replicate {A} n c (x : A) : width c (replicate n (replicate c x)).
Proof. apply Forall_replicate. apply length_replicate. Qed.

Lemma width_zip_app {A} (a b : list (list A)) ca cb :
  width ca a → width cb b → width (ca + cb) (zip_with app a b).
Proof.
  intros Ha. revert b. induction Ha as [|row a Hrow Ha IH]; intros b Hb; [constructor|].
  destruct Hb as [|row' b Hrow' Hb]; [constructor|].
  cbn. constructor; [rewrite length_app; lia|by apply IH].
Qed.

Lemma concat_rows_shape {A} (ts : list (list (list A))) : ∀ acc B c0 c,
  length acc = B → width c0 acc →
  Forall (λ t, length t = B ∧ width c t) ts →
  ∃ r, concat_rows acc ts = Ok r ∧ length r = B ∧ width (c0 + length ts * c) r.
Proof.
  induction ts as [|t ts IH]; intros acc B c0 c Hlen Hw Hts.
  - exists acc. cbn. split; [done|]. split; [done|]. by rewrite Nat.add_0_r.
  - apply Forall_cons in Hts as [[Hlt Hwt] Hts].
    cbn [concat_rows]. rewrite Hlt, Hlen, Nat.eqb_refl.
    destruct (IH (zip_with app acc t) B (c0 + c)%nat c) as (r & Hr & HB & Hwr).
    + rewrite length_zip_with. lia.
    + by apply width_zip_app.
    + done.
    + exists r. split; [done|]. split; [done|].
      cbn [length]. by replace (c0 + S (length ts) * c)%nat
        with (c0 + c + length ts * c)%nat by lia.
Qed.

Lemma np_full_shape rows cols v t :
  np_full rows cols v = Ok t →
  0 ≤ rows ∧ 0 ≤ cols ∧ t = replicate (Z.to_nat rows) (replicate (Z.to_nat cols) v).
Proof.
  unfold np_full. intros Ht.
  destruct (Z.ltb_spec rows 0); [done|].
  destruct (Z.ltb_spec cols 0); [done|]. cbn in Ht. by simplify_eq.
Qed.

Lemma assign_frame_shape rows cols value t :
  0 ≤ cols → assign_frame rows cols value = Ok t →
  ∃ row, t = replicate (Z.to_nat rows) row
    ∧ length row = Z.to_nat cols
    ∧ (∀ c, c ∈ row → c ∈ value)
    ∧ (Z.of_nat (length value) = cols → row = value).
Proof.
  unfold assign_frame. intros Hc Ht.
  destruct (Z.eqb_spec (Z.of_nat (length value)) cols) as [Heq|Hne].
  - simplify_eq. exists value. split; [done|]. split; [lia|]. done.
  - destruct value as [|v [|v' value]]; simplify_eq.
    exists (replicate (Z.to_nat cols) v). split; [done|].
    split; [apply length_replicate|]. split; [|done].
    intros c Hin. apply elem_of_replicate in Hin as [-> _]. apply elem_of_cons; by left.
Qed.

(** ** Strings: [split] always returns at least one piece *)

Lemma split_go_nonempty sep s : ∀ skip cur, split_go sep skip cur s ≠ [].
Proof.
  induction s as [|c s IH]; intros skip cur; [done|].
  cbn [split_go]. destruct skip; [|apply IH].
  destruct (String.prefix sep (String c s)); [done|apply IH].
Qed.

Lemma py_split_first s sep : ∃ piece, py_index (py_split s sep) 0 = Ok piece.
Proof.
  unfold py_split. pose proof (split_go_nonempty sep s 0 EmptyString) as Hne.
  destruct (split_go sep 0 EmptyString s) as [|piece l]; [done|].
  exists piece. by apply (py_index_nonneg _ 0%nat).
Qed.

Lemma py_split_last s sep : ∃ piece, py_index (py_split s sep) (-1) = Ok piece.
Proof.
  unfold py_split. pose proof (split_go_nonempty sep s 0 EmptyString) as Hne.
  destruct (exists_last Hne) as (front & piece & ->).
  exists piece. apply py_index_last.
Qed.

(** ** Seeding and the saving loop *)

Section FinalizeFacts.
Context {F : Type} `{PyNum F}.
Context {sample qtype model_state : Type}.
Variable quantize_sample : qtype → Z → sample → Z.
Variable dequantize_sample : qtype → Z → Z → sample.
Variable num_str : F → string.
Implicit Types m : SampleRNN qtype model_state.
Implicit Types w : world sample model_state.

Lemma load_seed_audio_Ok (audio : list sample) offset len chunk :
  load_seed_audio audio offset len = Ok chunk →
  offset + len ≤ Z.of_nat (length audio)
  ∧ chunk = py_slice (Some offset) (Some (offset + len)) audio.
Proof.
  unfold load_seed_audio. intros Hc.
  destruct (Z.leb_spec (offset + len) (Z.of_nat (length audio))); by simplify_eq.
Qed.

Lemma seeding_shape m seed seed_offset init :
  seeding quantize_sample m seed seed_offset = Ok init →
  0 ≤ batch_size m ∧ 0 ≤ big_frame_size m
  ∧ length init = Z.to_nat (batch_size m)
  ∧ width (Z.to_nat (big_frame_size m)) init.
Proof.
  unfold seeding. intros Hs.
  destruct (np_full _ _ _) as [t|e] eqn:Ef; [|done].
  apply np_full_shape in Ef as (HB & Hc & ->). cbn [mbind result_bind] in Hs.
  split; [done|]. split; [done|].
  destruct seed as [audio|].
  - destruct (load_seed_audio _ _ _) as [chunk|e]; [|done]. cbn [mbind result_bind] in Hs.
    apply assign_frame_shape in Hs as (row & -> & Hlen & _); [|done].
    split; [apply length_replicate|]. by apply Forall_replicate.
  - simplify_eq. split; [apply length_replicate|]. apply width_replicate.
Qed.

(** What the saving loop writes, whether it returns or raises part-way:
    file [k] of this run is sequence [i + k], trimmed and decoded, under
    the name built from its index and its temperature label. *)
Lemma save_loop_files m path (samples : tensor) (labels : list label) n :
  ∀ i w w' r,
  0 ≤ i →
  save_loop dequantize_sample num_str n i m path samples labels w = (w', r) →
  w_rnn w' = w_rnn w
  ∧ ∃ new, w_files w' = w_files w ++ new
    ∧ (length new ≤ n)%nat
    ∧ (r = Ok () → length new = n)
    ∧ ∀ k name audio, new !! k = Some (name, audio) →
        ∃ row t, samples !! (Z.to_nat i + k)%nat = Some row
          ∧ labels !! (Z.to_nat i + k)%nat = Some t
          ∧ audio = dequantize dequantize_sample m
                      (py_slice (Some (big_frame_size m)) None row)
          ∧ name = (if 1 <? batch_size m
                    then path +:+ "(" +:+ pretty (i + Z.of_nat k) +:+ ")"
                    else path) +:+ "_t=" +:+ label_str num_str t +:+ ".wav".
Proof.
  induction n as [|n IH]; intros i w w' r Hi Hs.
  - cbn in Hs. unfold mret, io_ret in Hs. simplify_eq.
    split; [done|]. exists []. rewrite app_nil_r.
    split; [done|]. split; [done|]. split; [done|]. intros k ? ? Hk. done.
  - cbn [save_loop] in Hs. unfold mbind, io_bind, lift in Hs.
    unfold tensor_row in Hs.
    destruct (samples !! Z.to_nat i) as [row|] eqn:Erow; cycle 1.
    { simplify_eq. split; [done|]. exists []. rewrite app_nil_r.
      split; [done|]. split; [cbn; lia|]. split; [done|]. intros k ? ? Hk. done. }
    destruct (Z.ltb_spec i 0); [lia|].
    destruct (py_index labels i) as [t|e] eqn:Et; cycle 1.
    { simplify_eq. split; [done|]. exists []. rewrite app_nil_r.
      split; [done|]. split; [cbn; lia|]. split; [done|]. intros k ? ? Hk. done. }
    apply py_index_Ok in Et; [|done].
    unfold write_wav in Hs.
    apply IH in Hs as (Hrnn & new & Hfiles & Hle & Hlen & Hnew); [|lia].
    cbn [w_rnn w_files] in *. split; [done|].
    eexists (_ :: new). split; [by rewrite Hfiles, <- app_assoc|].
    split; [cbn; lia|]. split; [intros Hr; cbn; by rewrite Hlen|].
    intros [|k] name audio Hk.
    + cbn in Hk. simplify_eq. exists row, t.
      rewrite Nat.add_0_r, Z.add_0_r. done.
    + cbn in Hk. destruct (Hnew _ _ _ Hk) as (row' & t' & Hr' & Ht' & -> & ->).
      exists row', t'.
      replace (Z.to_nat i + S k)%nat with (Z.to_nat (i + 1) + k)%nat by lia.
      replace (i + Z.of_nat (S k)) with (i + 1 + Z.of_nat k) by lia. done.
Qed.

(** The saving loop returns when there is a row and a label for every
    sequence. *)
Lemma save_loop_Ok m path (samples : tensor) (labels : list label) n :
  ∀ i w, 0 ≤ i →
  (Z.to_nat i + n ≤ length samples)%nat →
  (Z.to_nat i + n ≤ length labels)%nat →
  ∃ w', save_loop dequantize_sample num_str n i m path samples labels w = (w', Ok ()).
Proof.
  induction n as [|n IH]; intros i w Hi Hs Hl; [by eexists|].
  cbn [save_loop]. unfold mbind, io_bind, lift, tensor_row.
  destruct (samples !! Z.to_nat i) as [row|] eqn:Erow;
    [|apply lookup_ge_None in Erow; lia].
  destruct (Z.ltb_spec i 0); [lia|].
  destruct (lookup_lt_is_Some_2 labels (Z.to_nat i)) as [t Ht]; [lia|].
  assert (py_index labels i = Ok t) as ->
    by (rewrite <- (Z2Nat.id i) by lia; by apply py_index_nonneg).
  unfold write_wav. apply IH; lia.
Qed.

End FinalizeFacts.

(** * The claims *)

(** ** Temperature parsing (C2, C7) *)

Section ParseClaims.
Context {F : Type} `{PyNum F}.


(** C2 (as amended): for a non-empty list of raw specs, [parse_temperature]
    returns as many entries as were given when [numSeqs] is 1, and exactly
    [numSeqs] entries when [numSeqs] is at least 2: the last entry
    replicated to fill when fewer were given, the first [numSeqs] entries
    when more were given. *)
Theorem parse_temperature_resize (temperature : list (literal F)) num_seqs total_samps :
  temperature ≠ [] → 1 ≤ num_seqs →
  ∃ ps, parse_temperature temperature num_seqs total_samps = Ok ps
    ∧ (num_seqs = 1 → ps = parse_literal total_samps <$> temperature)
    ∧ (1 < num_seqs →
         length ps = Z.to_nat num_seqs
         ∧ ((length temperature ≤ Z.to_nat num_seqs)%nat →
              ∃ last_val, last (parse_literal total_samps <$> temperature) = Some last_val
                ∧ ps = (parse_literal total_samps <$> temperature) ++
                       replicate (Z.to_nat num_seqs - length temperature) last_val)
         ∧ ((Z.to_nat num_seqs ≤ length temperature)%nat →
              ps = take (Z.to_nat num_seqs) (parse_literal total_samps <$> temperature))).
Proof.
  intros Hne Hn. destruct (Z.eq_dec num_seqs 1) as [->|Hn1].
  - eexists. split; [by apply parse_temperature_single|]. split; [done|lia].
  - destruct (parse_temperature_many temperature num_seqs total_samps)
      as (ps & Hp & Hlen & Hfew & Hmany); [done|lia|].
    rewrite length_fmap in Hfew, Hmany.
    exists ps. split; [done|]. split; [lia|]. intros _. done.
Qed.


End ParseClaims.

(** C2, witness: one spec for three sequences. *)
Lemma parse_temperature_resize_witness :
  ∃ ps, parse_temperature (F:=Q) [LNum (1 # 2)] 3 100 = Ok ps
    ∧ (3 = 1 → ps = parse_literal 100 <$> [LNum (1 # 2)])
    ∧ (1 < 3 →
         length ps = Z.to_nat 3
         ∧ ((length [LNum (1 # 2)] ≤ Z.to_nat 3)%nat →
              ∃ last_val, last (parse_literal 100 <$> [LNum (1 # 2)]) = Some last_val
                ∧ ps = (parse_literal 100 <$> [LNum (1 # 2)]) ++
                       replicate (Z.to_nat 3 - length [LNum (1 # 2)]) last_val)
         ∧ ((Z.to_nat 3 ≤ length [LNum (1 # 2)])%nat →
              ps = take (Z.to_nat 3) (parse_literal 100 <$> [LNum (1 # 2)]))).
Proof. apply (parse_temperature_resize (F:=Q) [LNum (1 # 2)] 3 100); [done|lia]. Defined.

(** C2, counterexample: with [numSeqs = 1] and two specs given, both
    entries are returned: the list is not cut to [numSeqs] entries. *)
Lemma parse_temperature_single_not_resized :
  ∃ ps, parse_temperature (F:=Q) [LNum (1 # 2); LNum 1%Q] 1 100 = Ok ps
    ∧ length ps = 2%nat ∧ length ps ≠ Z.to_nat 1.
Proof. eexists. split; [reflexivity|]. split; [reflexivity|]. cbn. lia. Qed.



(** ** The generation driver (C1, C3, C4, C8, C9, C10) *)

Section DriverClaims.
Context {F : Type} `{PyNum F}.
Context {sample qtype model_state config : Type}.
Variable quantize_sample : qtype → Z → sample → Z.
Variable dequantize_sample : qtype → Z → Z → sample.
Variable num_str : F → string.
Variable build_model : Z → config → string → SampleRNN qtype model_state.
Variable advance : SampleRNN qtype model_state → tensor → list F → model_state * tensor.
Implicit Types m : SampleRNN qtype model_state.
Implicit Types w : world sample model_state.

(** The stepping loop writes no file. *)
Lemma stepping_files m n : ∀ g i samples w w' r,
  stepping advance n i m samples g w = (w', r) → w_files w' = w_files w.
Proof.
  induction n as [|n IH]; intros g i samples w w' r Hs.
  - cbn in Hs. unfold mret, io_ret in Hs. by simplify_eq.
  - cbn [stepping] in Hs. unfold mbind, io_bind, lift in Hs.
    destruct (py_index samples i) as [ctx|e]; [|by simplify_eq].
    destruct g as [t g'| |e]; cbn [next] in Hs.
    + unfold call_model in Hs.
      destruct (advance (set_rnn m (w_rnn w)) ctx t) as [s' frame].
      apply IH in Hs. by rewrite Hs.
    + unfold mret, io_ret in Hs. by simplify_eq.
    + destruct e; unfold mret, io_ret in Hs; by simplify_eq.
Qed.

(** A call that raised before the saving loop has written nothing. *)
Ltac no_files Hf :=
  cbn in Hf; simplify_eq; exists []; rewrite app_nil_r;
  split; [done|]; split; [intros ?; by simplify_eq|];
  intros ? ? ? Hk; by rewrite lookup_nil in Hk.

(** What FINALIZE writes, whether it returns or raises part-way. *)
Lemma finalize_files m path ckpt_path (parsed : list (tspec F)) samples w w' r :
  finalize dequantize_sample num_str m path ckpt_path parsed samples w = (w', r) →
  ∃ new, w_files w' = w_files w ++ new
    ∧ (r = Ok () → length new = Z.to_nat (batch_size m))
    ∧ ∀ k name audio, new !! k = Some (name, audio) →
        ∃ rows row t base epoch,
          tf_concat samples = Ok rows ∧ rows !! k = Some row
          ∧ parsed !! k = Some t
          ∧ py_index (py_split path ".wav") 0 = Ok base
          ∧ py_index (py_split ckpt_path "/model.ckpt-") (-1) = Ok epoch
          ∧ audio = dequantize dequantize_sample m
                      (py_slice (Some (big_frame_size m)) None
                         (py_slice (Some (big_frame_size m)) None row))
          ∧ name = (if 1 <? batch_size m
                    then (base +:+ "_e=" +:+ epoch) +:+ "(" +:+ pretty (Z.of_nat k) +:+ ")"
                    else base +:+ "_e=" +:+ epoch)
                   +:+ "_t=" +:+ label_str num_str (name_label t) +:+ ".wav".
Proof.
  unfold finalize. unfold mbind at 1 2 3, io_bind, lift. intros Hf.
  destruct (tf_concat samples) as [rows|e] eqn:Ec; [|no_files Hf].
  destruct (py_index (py_split ckpt_path "/model.ckpt-") (-1)) as [epoch|e] eqn:Ee;
    [|no_files Hf].
  destruct (py_index (py_split path ".wav") 0) as [base|e] eqn:Eb; [|no_files Hf].
  apply save_loop_files in Hf as (_ & new & Hfiles & _ & Hlen & Hnew); [|done].
  exists new. split; [done|].
  split; [intros Hr; rewrite (Hlen Hr); unfold range_len; f_equal; lia|].
  intros k name audio Hk.
  destruct (Hnew _ _ _ Hk) as (row' & lbl & Hrow & Hlbl & -> & ->).
  change (Z.to_nat 0 + k)%nat with k in Hrow, Hlbl. rewrite Z.add_0_l.
  apply list_lookup_fmap_Some in Hrow as (row & -> & Hrow).
  apply list_lookup_fmap_Some in Hlbl as (t & -> & Hlbl).
  by exists rows, row, t, base, epoch.
Qed.

(** [generate] past its three fallible preparations: seeding, the frame
    count and the parse. *)
Lemma generate_io_unfold m path ckpt_path num_seqs dur sample_rate temperature
    seed seed_offset w init num_frames parsed :
  seeding quantize_sample m seed seed_offset = Ok init →
  floordiv (dur * sample_rate) (big_frame_size m) = Ok num_frames →
  parse_temperature temperature num_seqs (dur * sample_rate) = Ok parsed →
  generate_io quantize_sample dequantize_sample num_str advance m path ckpt_path
    num_seqs dur sample_rate temperature seed seed_offset w =
  match stepping advance (range_len 0 num_frames) 0 m [init]
          (get_temperature parsed num_frames) w with
  | (w1, Ok samples) =>
      finalize dequantize_sample num_str m path ckpt_path parsed samples w1
  | (w1, Raise e) => (w1, Raise e)
  end.
Proof.
  intros Hs Hf Hp. unfold generate_io, mbind, io_bind, lift.
  by rewrite Hs, Hf, Hp.
Qed.

(** Every file a call of [generate] writes, whether it returns or raises,
    is written by FINALIZE. *)
Lemma generate_io_files m path ckpt_path num_seqs dur sample_rate temperature
    seed seed_offset w w' r :
  generate_io quantize_sample dequantize_sample num_str advance m path ckpt_path
    num_seqs dur sample_rate temperature seed seed_offset w = (w', r) →
  ∃ new, w_files w' = w_files w ++ new
    ∧ (r = Ok () → length new = Z.to_nat (batch_size m))
    ∧ ∀ k name audio, new !! k = Some (name, audio) →
        ∃ parsed t base epoch,
          parse_temperature temperature num_seqs (dur * sample_rate) = Ok parsed
          ∧ parsed !! k = Some t
          ∧ py_index (py_split path ".wav") 0 = Ok base
          ∧ py_index (py_split ckpt_path "/model.ckpt-") (-1) = Ok epoch
          ∧ name = (if 1 <? batch_size m
                    then (base +:+ "_e=" +:+ epoch) +:+ "(" +:+ pretty (Z.of_nat k) +:+ ")"
                    else base +:+ "_e=" +:+ epoch)
                   +:+ "_t=" +:+ label_str num_str (name_label t) +:+ ".wav".
Proof.
  intros Hg.
  destruct (seeding quantize_sample m seed seed_offset) as [init|e] eqn:Es; cycle 1.
  { unfold generate_io, mbind, io_bind, lift in Hg. rewrite Es in Hg. no_files Hg. }
  destruct (floordiv (dur * sample_rate) (big_frame_size m)) as [nf|e] eqn:Ef; cycle 1.
  { unfold generate_io, mbind, io_bind, lift in Hg. rewrite Es, Ef in Hg. no_files Hg. }
  destruct (parse_temperature temperature num_seqs (dur * sample_rate))
    as [parsed|e] eqn:Ep; cycle 1.
  { unfold generate_io, mbind, io_bind, lift in Hg. rewrite Es, Ef, Ep in Hg.
    no_files Hg. }
  rewrite (generate_io_unfold _ _ _ _ _ _ _ _ _ _ _ _ _ Es Ef Ep) in Hg.
  destruct (stepping _ _ _ _ _ _ _) as [w1 [samples|e]] eqn:Est.
  - apply stepping_files in Est.
    apply finalize_files in Hg as (new & Hfiles & Hlen & Hnew).
    exists new. split; [by rewrite Hfiles, Est|]. split; [done|].
    intros k name audio Hk.
    destruct (Hnew _ _ _ Hk) as (rows & row & t & base & epoch & _ & _ & Ht & Hb & He & _ & ->).
    by exists parsed, t, base, epoch.
  - apply stepping_files in Est. simplify_eq. exists []. rewrite app_nil_r.
    split; [done|]. split; [intros ?; by simplify_eq|].
    intros ? ? ? Hk. by rewrite lookup_nil in Hk.
Qed.

(** C3 (as amended): every file a call of [generate] writes is named from
    the output path cut at ".wav", the checkpoint's epoch marker, the
    sequence index in brackets (only when [numSeqs > 1]) and the
    temperature of that sequence: the number itself for a scalar spec, and
    for a curve spec its whole list of y-values, printed as a list (not the
    last value alone). *)
Theorem output_file_names path ckpt_path cfg num_seqs dur sample_rate temperature
    seed seed_offset k name audio :
  w_files (generate quantize_sample dequantize_sample num_str build_model advance
             path ckpt_path cfg num_seqs dur sample_rate temperature seed seed_offset).1
    !! k = Some (name, audio) →
  ∃ parsed t base epoch,
    parse_temperature temperature num_seqs (dur * sample_rate) = Ok parsed
    ∧ parsed !! k = Some t
    ∧ py_index (py_split path ".wav") 0 = Ok base
    ∧ py_index (py_split ckpt_path "/model.ckpt-") (-1) = Ok epoch
    ∧ name = (if 1 <? num_seqs
              then (base +:+ "_e=" +:+ epoch) +:+ "(" +:+ pretty (Z.of_nat k) +:+ ")"
              else base +:+ "_e=" +:+ epoch)
             +:+ "_t=" +:+
             match t with
             | Const v => num_str v
             | Curve _ ys => "[" +:+ join_comma (num_str <$> ys) +:+ "]"
             end +:+ ".wav".
Proof.
  unfold generate. intros Hk.
  destruct (generate_io _ _ _ _ _ _ _ _ _ _ _ _ _ _) as [w' r] eqn:Hg.
  apply generate_io_files in Hg as (new & Hfiles & _ & Hnew).
  cbn [fst w_files app] in Hk, Hfiles. rewrite Hfiles in Hk.
  destruct (Hnew _ _ _ Hk) as (parsed & t & base & epoch & Hp & Ht & Hb & He & ->).
  exists parsed, t, base, epoch. repeat (split; [done|]).
  cbn [batch_size create_inference_model]. by destruct t.
Qed.

(** C10: with scalar temperatures only, the temperature stream yields
    exactly [numFrames] vectors, each the list of the scalars, and then
    ends; it never runs out early, so the stepping loop advances the model
    on all [numFrames] frames and returns them after the initial frame. *)
Theorem scalar_temperatures_run_full (vs : list F) num_frames m init w :
  yields (get_temperature (Const <$> vs) num_frames) = replicate (Z.to_nat num_frames) vs
  ∧ ending (get_temperature (Const <$> vs) num_frames) = None
  ∧ ∃ s' frames,
      stepping advance (range_len 0 num_frames) 0 m [init]
        (get_temperature (Const <$> vs) num_frames) w
      = ({| w_rnn := s'; w_files := w_files w |}, Ok (init :: frames))
      ∧ length frames = Z.to_nat num_frames.
Proof.
  unfold get_temperature. rewrite make_source_consts.
  unfold range_len. rewrite Z.sub_0_r.
  destruct (temperature_loop_consts (Z.to_nat num_frames) vs) as [Hy He].
  split; [done|]. split; [done|].
  rewrite (stepping_spec advance m _ _ 0 [init] init w); [|done|done|by left].
  do 2 eexists. split; [done|].
  rewrite advance_all_length, Hy, take_ge; rewrite length_replicate; lia.
Qed.

(** C9: when seeding succeeds, the initial frame is one row repeated for
    all [numSeqs] sequences; the row has [bigFrameSize] entries, all of
    them quantized samples of the one chunk read from the seed at the
    offset (none is left at the midpoint symbol), and for a non-negative
    offset the row is the quantized chunk itself. *)
Theorem seed_shared_by_all_sequences ckpt_path num_seqs cfg audio seed_offset init :
  seeding quantize_sample (create_inference_model build_model ckpt_path num_seqs cfg)
    (Some audio) seed_offset = Ok init →
  ∃ bfs chunk row,
    bfs = big_frame_size (create_inference_model build_model ckpt_path num_seqs cfg)
    ∧ load_seed_audio audio seed_offset bfs = Ok chunk
    ∧ init = replicate (Z.to_nat num_seqs) row
    ∧ length row = Z.to_nat bfs
    ∧ (∀ c, c ∈ row →
         c ∈ quantize quantize_sample
               (create_inference_model build_model ckpt_path num_seqs cfg) chunk)
    ∧ (0 ≤ seed_offset →
         chunk = take (Z.to_nat bfs) (drop (Z.to_nat seed_offset) audio)
         ∧ row = quantize quantize_sample
                   (create_inference_model build_model ckpt_path num_seqs cfg) chunk).
Proof.
  set (m := create_inference_model build_model ckpt_path num_seqs cfg).
  unfold seeding. intros Hs.
  destruct (np_full _ _ _) as [t|e] eqn:Ef; [|done].
  apply np_full_shape in Ef as (HB & Hc & _). cbn [mbind result_bind] in Hs.
  destruct (load_seed_audio audio seed_offset (big_frame_size m)) as [chunk|e] eqn:El;
    [|done].
  cbn [mbind result_bind] in Hs.
  apply assign_frame_shape in Hs as (row & -> & Hlen & Hin & Hfull); [|done].
  exists (big_frame_size m), chunk, row. split; [done|]. split; [done|].
  split; [done|]. split; [done|]. split; [done|].
  intros Hoff. apply load_seed_audio_Ok in El as (Hle & Hchunk).
  rewrite py_slice_window in Hchunk by lia.
  replace (seed_offset + big_frame_size m - seed_offset) with (big_frame_size m)
    in Hchunk by lia.
  split; [done|]. apply Hfull.
  unfold quantize. rewrite length_fmap, Hchunk, length_take, length_drop. lia.
Qed.

(** The errors the parts of [generate] after SEEDING can raise. *)
Lemma py_index_raises {A} (l : list A) i e : py_index l i = Raise e → e = IndexError.
Proof. unfold py_index. intros Hi. repeat case_match; by simplify_eq. Qed.

Lemma concat_rows_raises {A} (ts : list (list (list A))) acc e :
  concat_rows acc ts = Raise e → e = InvalidArgumentError.
Proof.
  revert acc. induction ts as [|t ts IH]; intros acc Hc; [done|].
  cbn [concat_rows] in Hc. destruct (Nat.eqb _ _); [by eapply IH|by simplify_eq].
Qed.

Lemma stepping_raises m n : ∀ g i samples w w' e,
  stepping advance n i m samples g w = (w', Raise e) →
  e = IndexError ∨ ending g = Some e.
Proof.
  induction n as [|n IH]; intros g i samples w w' e Hs.
  - cbn in Hs. unfold mret, io_ret in Hs. by simplify_eq.
  - cbn [stepping] in Hs. unfold mbind, io_bind, lift in Hs.
    destruct (py_index samples i) as [ctx|e0] eqn:Ei.
    2:{ simplify_eq. left. by eapply py_index_raises. }
    destruct g as [t g'| |e0]; cbn [next] in Hs.
    + unfold call_model in Hs.
      destruct (advance (set_rnn m (w_rnn w)) ctx t) as [s' frame].
      apply IH in Hs as [->|Hs]; [by left|by right].
    + unfold mret, io_ret in Hs. by simplify_eq.
    + destruct e0; unfold mret, io_ret in Hs; simplify_eq; by right.
Qed.

Lemma save_loop_raises m path (samples : tensor) (labels : list label) n :
  ∀ i w w' e,
  save_loop dequantize_sample num_str n i m path samples labels w = (w', Raise e) →
  e = InvalidArgumentError ∨ e = IndexError.
Proof.
  induction n as [|n IH]; intros i w w' e Hs.
  - cbn in Hs. unfold mret, io_ret in Hs. by simplify_eq.
  - cbn [save_loop] in Hs. unfold mbind, io_bind, lift, tensor_row in Hs.
    destruct (samples !! Z.to_nat i) as [row|]; [|simplify_eq; by left].
    destruct (i <? 0); [simplify_eq; by left|].
    destruct (py_index labels i) as [t|e0] eqn:Et.
    2:{ simplify_eq. right. by eapply py_index_raises. }
    unfold write_wav in Hs. by eapply IH.
Qed.

Lemma generate_io_raises m path ckpt_path num_seqs dur sample_rate temperature
    seed seed_offset w w' e init :
  seeding quantize_sample m seed seed_offset = Ok init →
  generate_io quantize_sample dequantize_sample num_str advance m path ckpt_path
    num_seqs dur sample_rate temperature seed seed_offset w = (w', Raise e) →
  e ≠ AssertionError.
Proof.
  intros Es Hg.
  destruct (floordiv (dur * sample_rate) (big_frame_size m)) as [nf|e0] eqn:Ef; cycle 1.
  { unfold generate_io, mbind, io_bind, lift in Hg. rewrite Es, Ef in Hg.
    unfold floordiv in Ef. destruct (_ =? _); by simplify_eq. }
  destruct (parse_temperature temperature num_seqs (dur * sample_rate))
    as [parsed|e0] eqn:Ep; cycle 1.
  { unfold generate_io, mbind, io_bind, lift in Hg. rewrite Es, Ef, Ep in Hg.
    unfold parse_temperature in Ep. repeat case_match; simplify_eq.
    destruct (py_index _ _) eqn:Ei in Ep; [done|].
    cbn in Ep. simplify_eq. apply py_index_raises in Ei. by subst. }
  rewrite (generate_io_unfold _ _ _ _ _ _ _ _ _ _ _ _ _ Es Ef Ep) in Hg.
  destruct (stepping _ _ _ _ _ _ _) as [w1 [samples|e0]] eqn:Est.
  - unfold finalize in Hg. unfold mbind at 1 2 3, io_bind, lift in Hg.
    destruct (tf_concat samples) as [rows|e0] eqn:Ec.
    2:{ simplify_eq. destruct samples as [|t ts]; cbn in Ec; [by simplify_eq|].
        apply concat_rows_raises in Ec. by subst. }
    destruct (py_index _ (-1)) as [epoch|e0] eqn:Ee.
    2:{ simplify_eq. apply py_index_raises in Ee. by subst. }
    destruct (py_index _ 0) as [base|e0] eqn:Eb.
    2:{ simplify_eq. apply py_index_raises in Eb. by subst. }
    apply save_loop_raises in Hg as [->| ->]; done.
  - simplify_eq. apply stepping_raises in Est as [->|He]; [done|].
    apply get_temperature_ending_cases in He as [->| ->]; done.
Qed.

(** C8 (as amended): for a seed, with [numSeqs] and the big frame size not
    negative: if [offset + bigFrameSize] exceeds the seed's length the call
    raises the assertion error with the model still in its initial state
    and no file written; if [offset + bigFrameSize] is within the seed's
    length the call does not raise that error, and if in addition the
    offset is not negative, seeding succeeds with the quantized chunk as
    the frame of every sequence. *)
Theorem seed_length_check path ckpt_path cfg num_seqs dur sample_rate temperature
    audio seed_offset :
  0 ≤ num_seqs →
  0 ≤ big_frame_size (create_inference_model build_model ckpt_path num_seqs cfg) →
  (Z.of_nat (length audio)
     < seed_offset + big_frame_size (create_inference_model build_model ckpt_path num_seqs cfg) →
   generate quantize_sample dequantize_sample num_str build_model advance
     path ckpt_path cfg num_seqs dur sample_rate temperature (Some audio) seed_offset
   = ({| w_rnn := rnn (create_inference_model build_model ckpt_path num_seqs cfg);
         w_files := [] |}, Raise AssertionError))
  ∧ (seed_offset + big_frame_size (create_inference_model build_model ckpt_path num_seqs cfg)
       ≤ Z.of_nat (length audio) →
     (generate quantize_sample dequantize_sample num_str build_model advance
        path ckpt_path cfg num_seqs dur sample_rate temperature (Some audio) seed_offset).2
     ≠ Raise AssertionError
     ∧ (0 ≤ seed_offset →
        seeding quantize_sample (create_inference_model build_model ckpt_path num_seqs cfg)
          (Some audio) seed_offset
        = Ok (replicate (Z.to_nat num_seqs)
                (quantize quantize_sample
                   (create_inference_model build_model ckpt_path num_seqs cfg)
                   (take (Z.to_nat (big_frame_size
                            (create_inference_model build_model ckpt_path num_seqs cfg)))
                         (drop (Z.to_nat seed_offset) audio)))))).
Proof.
  set (m := create_inference_model build_model ckpt_path num_seqs cfg).
  intros HB Hc.
  assert (np_full (batch_size m) (big_frame_size m) (q_levels m `div` 2)
          = Ok (replicate (Z.to_nat (batch_size m))
                  (replicate (Z.to_nat (big_frame_size m)) (q_levels m `div` 2)))) as Hfull.
  { unfold np_full. change (batch_size m) with num_seqs.
    destruct (Z.ltb_spec num_seqs 0); [lia|].
    by destruct (Z.ltb_spec (big_frame_size m) 0); [lia|]. }
  split.
  - intros Hshort. unfold generate. fold m.
    unfold generate_io, mbind, io_bind, lift, seeding.
    rewrite Hfull. cbn [mbind result_bind]. unfold load_seed_audio.
    by destruct (Z.leb_spec (seed_offset + big_frame_size m) (Z.of_nat (length audio)));
      [lia|].
  - intros Hfit.
    assert (load_seed_audio audio seed_offset (big_frame_size m)
            = Ok (py_slice (Some seed_offset) (Some (seed_offset + big_frame_size m)) audio))
      as Hload.
    { unfold load_seed_audio.
      by destruct (Z.leb_spec (seed_offset + big_frame_size m) (Z.of_nat (length audio)));
        [|lia]. }
    split.
    + unfold generate. fold m.
      destruct (generate_io _ _ _ _ _ _ _ _ _ _ _ _ _ _) as [w' r] eqn:Hg.
      cbn [snd]. intros ->.
      destruct (seeding quantize_sample m (Some audio) seed_offset) as [init|e] eqn:Es.
      * by apply (generate_io_raises _ _ _ _ _ _ _ _ _ _ _ _ _ Es) in Hg.
      * unfold generate_io, mbind, io_bind, lift in Hg. rewrite Es in Hg. simplify_eq.
        unfold seeding in Es. rewrite Hfull, Hload in Es. cbn [mbind result_bind] in Es.
        unfold assign_frame in Es. repeat case_match; by simplify_eq.
    + intros Hoff. unfold seeding. rewrite Hfull, Hload. cbn [mbind result_bind].
      rewrite py_slice_window by lia.
      replace (seed_offset + big_frame_size m - seed_offset) with (big_frame_size m) by lia.
      unfold assign_frame.
      match goal with |- context [Z.of_nat ?n =? big_frame_size m] =>
        destruct (Z.eqb_spec (Z.of_nat n) (big_frame_size m)) as [_|Hne] end; [done|].
      destruct Hne. unfold quantize. rewrite length_fmap, length_take, length_drop. lia.
Qed.

(** C4: if the temperature stream of a call ends by exhaustion after
    [k < numFrames] vectors, then it ended because one of its curve
    generators was exhausted after [k] values while no generator gave
    fewer, the stepping loop returns without an error having advanced the
    model exactly once per vector pulled ([k] times, as in the reference
    run), and FINALIZE receives the initial frame followed by all [k]
    frames generated. *)
Theorem early_exhaustion_stops_stepping m path ckpt_path num_seqs dur sample_rate
    temperature seed seed_offset init parsed w :
  let num_frames := (dur * sample_rate) `div` big_frame_size m in
  let stream := get_temperature parsed num_frames in
  let run := advance_all advance m (w_rnn w) init (yields stream) in
  big_frame_size m ≠ 0 →
  seeding quantize_sample m seed seed_offset = Ok init →
  parse_temperature temperature num_seqs (dur * sample_rate) = Ok parsed →
  ending stream = None →
  (length (yields stream) < Z.to_nat num_frames)%nat →
  (∃ g, SGen g ∈ make_source num_frames <$> parsed ∧ ending g = None
        ∧ length (yields g) = length (yields stream))
  ∧ (∀ g, SGen g ∈ make_source num_frames <$> parsed →
        (length (yields stream) ≤ length (yields g))%nat)
  ∧ stepping advance (range_len 0 num_frames) 0 m [init] stream w
    = ({| w_rnn := run.1; w_files := w_files w |}, Ok (init :: run.2))
  ∧ length run.2 = length (yields stream)
  ∧ generate_io quantize_sample dequantize_sample num_str advance m path ckpt_path
      num_seqs dur sample_rate temperature seed seed_offset w
    = finalize dequantize_sample num_str m path ckpt_path parsed (init :: run.2)
        {| w_rnn := run.1; w_files := w_files w |}.
Proof.
  intros num_frames stream run Hbfs Hseed Hparse Hend Hshort.
  assert (range_len 0 num_frames = Z.to_nat num_frames) as Hrange
    by (unfold range_len; f_equal; lia).
  assert (stepping advance (range_len 0 num_frames) 0 m [init] stream w
          = ({| w_rnn := run.1; w_files := w_files w |}, Ok (init :: run.2))) as Hstep.
  { rewrite (stepping_spec advance m _ _ 0 [init] init w); [|done|done|by left].
    rewrite take_ge by lia. done. }
  destruct (temperature_loop_first_exhaustion (range_len 0 num_frames)
              (make_source num_frames <$> parsed)) as [Hex Hall].
  { intros g Hg. by apply (make_source_ending num_frames parsed). }
  { done. }
  { fold (get_temperature parsed num_frames). fold stream. lia. }
  split; [done|]. split; [done|]. split; [done|].
  split; [apply advance_all_length|].
  rewrite (generate_io_unfold m _ _ _ _ _ _ _ _ w init num_frames parsed); [|done| |done].
  - fold stream. by rewrite Hstep.
  - unfold floordiv. by destruct (Z.eqb_spec (big_frame_size m) 0).
Qed.

(** Frames of a model that emits one frame of [bigFrameSize] samples for
    each sequence. *)
Lemma advance_all_shape m s ctx ts :
  (∀ m' ctx' t, length (advance m' ctx' t).2 = Z.to_nat (batch_size m')
                ∧ width (Z.to_nat (big_frame_size m')) (advance m' ctx' t).2) →
  Forall (λ t, length t = Z.to_nat (batch_size m)
               ∧ width (Z.to_nat (big_frame_size m)) t)
         (advance_all advance m s ctx ts).2.
Proof.
  intros Hshape. revert s ctx. induction ts as [|t ts IH]; intros s ctx; [constructor|].
  cbn [advance_all]. pose proof (Hshape (set_rnn m s) ctx t) as Hfr.
  destruct (advance (set_rnn m s) ctx t) as [s' frame].
  specialize (IH s' frame). destruct (advance_all advance m s' frame ts) as [s'' frames].
  cbn in *. by constructor.
Qed.

(** C1 (what the code does): with a model that emits one frame of
    [bigFrameSize] samples per sequence and step, and a temperature stream
    that is not exhausted early, [generate] returns and writes [numSeqs]
    sequences of [(numFrames - 1) * bigFrameSize] samples each: the leading
    frame is discarded twice, once from the concatenated batch and once
    more from every sequence, so one generated frame is lost. *)
Theorem generate_written_length path ckpt_path cfg num_seqs dur sample_rate
    temperature seed seed_offset init parsed :
  let m := create_inference_model build_model ckpt_path num_seqs cfg in
  let num_frames := (dur * sample_rate) `div` big_frame_size m in
  (∀ m' ctx t, length (advance m' ctx t).2 = Z.to_nat (batch_size m')
               ∧ width (Z.to_nat (big_frame_size m')) (advance m' ctx t).2) →
  0 < big_frame_size m →
  seeding quantize_sample m seed seed_offset = Ok init →
  parse_temperature temperature num_seqs (dur * sample_rate) = Ok parsed →
  (Z.to_nat num_seqs ≤ length parsed)%nat →
  length (yields (get_temperature parsed num_frames)) = Z.to_nat num_frames →
  ∃ w', generate quantize_sample dequantize_sample num_str build_model advance
          path ckpt_path cfg num_seqs dur sample_rate temperature seed seed_offset
        = (w', Ok ())
    ∧ length (w_files w') = Z.to_nat num_seqs
    ∧ ∀ name audio, (name, audio) ∈ w_files w' →
        length audio = Z.to_nat ((num_frames - 1) * big_frame_size m).
Proof.
  intros m num_frames Hshape Hbfs Hseed Hparse Hlabels Hfull.
  assert (range_len 0 num_frames = Z.to_nat num_frames) as Hrange
    by (unfold range_len; f_equal; lia).
  unfold generate. fold m.
  set (w := {| w_rnn := rnn m; w_files := [] |}).
  rewrite (generate_io_unfold m _ _ _ _ _ _ _ _ w init num_frames parsed); [|done| |done];
    cycle 1.
  { unfold floordiv. by destruct (Z.eqb_spec (big_frame_size m) 0); [lia|]. }
  rewrite (stepping_spec advance m _ _ 0 [init] init w); [|done|done|right; lia].
  rewrite take_ge by lia.
  set (run := advance_all advance m (w_rnn w) init _).
  assert (length run.2 = Z.to_nat num_frames) as Hframes
    by (unfold run; by rewrite advance_all_length).
  pose proof (advance_all_shape m (w_rnn w) init
                (yields (get_temperature parsed num_frames)) Hshape) as Hfs.
  fold run in Hfs.
  destruct (seeding_shape _ _ _ _ _ Hseed) as (HB & _ & Hilen & Hiw).
  destruct (concat_rows_shape run.2 init _ _ _ Hilen Hiw Hfs) as (rows & Hrows & Hrlen & Hrw).
  set (w1 := {| w_rnn := run.1; w_files := w_files w |}).
  destruct (py_split_last ckpt_path "/model.ckpt-") as [epoch Hepoch].
  destruct (py_split_first path ".wav") as [base Hbase].
  set (trimmed := py_slice (Some (big_frame_size m)) None <$> rows).
  destruct (save_loop_Ok dequantize_sample num_str m (base +:+ "_e=" +:+ epoch)
              trimmed (name_label <$> parsed) (range_len 0 (batch_size m)) 0 w1)
    as [w' Hsave].
  { done. }
  { unfold trimmed, range_len. rewrite length_fmap, Hrlen. cbn. lia. }
  { unfold range_len. rewrite length_fmap. change (batch_size m) with num_seqs. cbn. lia. }
  exists w'.
  assert (finalize dequantize_sample num_str m path ckpt_path parsed (init :: run.2) w1
          = (w', Ok ())) as Hfin.
  { unfold finalize. unfold mbind at 1 2 3, io_bind, lift.
    cbn [tf_concat]. rewrite Hrows, Hepoch, Hbase. exact Hsave. }
  split; [done|].
  apply save_loop_files in Hsave as (_ & new & Hfiles & _ & Hlen & Hnew); [|done].
  cbn [w1 w w_files app] in Hfiles. rewrite Hfiles.
  split.
  { rewrite (Hlen eq_refl). unfold range_len. change (batch_size m) with num_seqs.
    f_equal. lia. }
  intros name audio Hin. apply list_elem_of_lookup in Hin as [k Hk].
  destruct (Hnew _ _ _ Hk) as (row' & t & Hrow & _ & -> & _).
  unfold trimmed in Hrow. apply list_lookup_fmap_Some in Hrow as (row & -> & Hrow).
  unfold dequantize. rewrite length_fmap.
  rewrite !py_slice_from_nonneg by lia. rewrite !length_drop.
  unfold width in Hrw. rewrite Forall_lookup in Hrw.
  rewrite (Hrw _ _ Hrow). unfold tensor in *. rewrite Hframes.
  destruct (Z.le_gt_cases num_frames 0) as [Hneg|Hpos].
  - replace (Z.to_nat num_frames) with 0%nat by lia.
    replace (Z.to_nat ((num_frames - 1) * big_frame_size m)) with 0%nat by nia. lia.
  - rewrite Z2Nat.inj_mul, Z2Nat.inj_sub by lia.
    change (Z.to_nat 1) with 1%nat. nia.
Qed.

End DriverClaims.

(** *** The driver on the stub model *)

Lemma string_length_app (a b : string) :
  String.length (a +:+ b) = (String.length a + String.length b)%nat.
Proof.
  induction a as [|c a IH]; [done|].
  change (String c a +:+ b) with (String c (a +:+ b)).
  cbn [String.length]. by rewrite IH.
Qed.

Lemma stub_advance_shape (m : SampleRNN unit nat) (ctx : tensor) (t : list Q) :
  length (Stub.advance m ctx t).2 = Z.to_nat (batch_size m)
  ∧ width (Z.to_nat (big_frame_size m)) (Stub.advance m ctx t).2.
Proof. cbn. split; [apply length_replicate|apply width_replicate]. Qed.

(** C1, the spec's end-to-end example: frames of 8 samples, one second at
    8 samples per second, one sequence, temperature 1.0.  One frame is
    generated and the file is written with no sample at all. *)
Lemma generate_spec_example_writes_nothing :
  Stub.generate "out.wav" "logdir/model.ckpt-12" 8 1 1 8 [LNum 1%Q] None 0
  = ({| w_rnn := 1%nat; w_files := [("out_e=12_t=1/1.wav", [])] |}, Ok ()).
Proof. reflexivity. Qed.

(** C1, witness: the same example. *)
Lemma generate_written_length_witness :
  let m := create_inference_model Stub.build_model "logdir/model.ckpt-12" 1 8 in
  (0 < big_frame_size m
   ∧ seeding Stub.quantize_sample m None 0 = Ok [replicate 8 128]
   ∧ parse_temperature [LNum 1%Q] 1 (1 * 8) = Ok [Const 1%Q]
   ∧ (Z.to_nat 1 ≤ length [Const 1%Q])%nat
   ∧ length (yields (get_temperature [Const 1%Q] ((1 * 8) `div` big_frame_size m)))
     = Z.to_nat ((1 * 8) `div` big_frame_size m))
  ∧ ∃ w', Stub.generate "out.wav" "logdir/model.ckpt-12" 8 1 1 8 [LNum 1%Q] None 0
          = (w', Ok ())
      ∧ length (w_files w') = Z.to_nat 1
      ∧ ∀ name audio, (name, audio) ∈ w_files w' →
          length audio = Z.to_nat (((1 * 8) `div` big_frame_size m - 1) * big_frame_size m).
Proof.
  intros m.
  assert (0 < big_frame_size m) as H1 by (vm_compute; reflexivity).
  assert (seeding Stub.quantize_sample m None 0 = Ok [replicate 8 128]) as H2
    by reflexivity.
  assert (parse_temperature [LNum 1%Q] 1 (1 * 8) = Ok [Const 1%Q]) as H3 by reflexivity.
  assert (Z.to_nat 1 ≤ length [Const 1%Q])%nat as H4 by (vm_compute; lia).
  assert (length (yields (get_temperature [Const 1%Q] ((1 * 8) `div` big_frame_size m)))
          = Z.to_nat ((1 * 8) `div` big_frame_size m)) as H5 by reflexivity.
  split; [done|].
  exact (generate_written_length Stub.quantize_sample Stub.dequantize_sample
           Stub.ratio_str Stub.build_model Stub.advance
           "out.wav" "logdir/model.ckpt-12" 8 1 1 8 [LNum 1%Q] None 0
           [replicate 8 128] [Const 1%Q] stub_advance_shape H1 H2 H3 H4 H5).
Defined.

(** C3, witness: a curve with y-values 1 and 1/2 for one sequence. *)
Lemma output_file_names_witness :
  w_files (Stub.generate "out.wav" "logdir/model.ckpt-12" 2 1 1 8
             [LCurve [0%Q; 1%Q] [1%Q; 1 # 2]] None 0).1 !! 0%nat
  = Some ("out_e=12_t=[1/1, 1/2].wav", [128; 128; 128; 128; 128; 128])
  ∧ ∃ parsed t base epoch,
      parse_temperature [LCurve [0%Q; 1%Q] [1%Q; 1 # 2]] 1 (1 * 8) = Ok parsed
      ∧ parsed !! 0%nat = Some t
      ∧ py_index (py_split "out.wav" ".wav") 0 = Ok base
      ∧ py_index (py_split "logdir/model.ckpt-12" "/model.ckpt-") (-1) = Ok epoch
      ∧ "out_e=12_t=[1/1, 1/2].wav"
        = (if 1 <? 1
           then (base +:+ "_e=" +:+ epoch) +:+ "(" +:+ pretty (Z.of_nat 0) +:+ ")"
           else base +:+ "_e=" +:+ epoch)
          +:+ "_t=" +:+
          match t with
          | Const v => Stub.ratio_str v
          | Curve _ ys => "[" +:+ join_comma (Stub.ratio_str <$> ys) +:+ "]"
          end +:+ ".wav".
Proof.
  assert (w_files (Stub.generate "out.wav" "logdir/model.ckpt-12" 2 1 1 8
                     [LCurve [0%Q; 1%Q] [1%Q; 1 # 2]] None 0).1 !! 0%nat
          = Some ("out_e=12_t=[1/1, 1/2].wav", [128; 128; 128; 128; 128; 128])) as Hk
    by reflexivity.
  split; [done|].
  exact (output_file_names Stub.quantize_sample Stub.dequantize_sample
           Stub.ratio_str Stub.build_model Stub.advance
           "out.wav" "logdir/model.ckpt-12" 2 1 1 8
           [LCurve [0%Q; 1%Q] [1%Q; 1 # 2]] None 0 0%nat _ _ Hk).
Defined.

(** C3, counterexample: for a curve whose y-values are 1 and 1/2 the file
    name carries the whole list; under no rendering of numbers is it the
    name built from the final y-value 1/2 alone. *)
Lemma curve_file_name_lists_all_y_values :
  (w_files (Stub.generate "out.wav" "logdir/model.ckpt-12" 2 1 1 8
              [LCurve [0%Q; 1%Q] [1%Q; 1 # 2]] None 0).1).*1
  = ["out_e=12_t=[1/1, 1/2].wav"]
  ∧ ¬ ∃ num_str : Q → string,
        (w_files (generate Stub.quantize_sample Stub.dequantize_sample num_str
                    Stub.build_model Stub.advance "out.wav" "logdir/model.ckpt-12"
                    2 1 1 8 [LCurve [0%Q; 1%Q] [1%Q; 1 # 2]] None 0).1).*1
        = ["out_e=12_t=" +:+ num_str (1 # 2) +:+ ".wav"].
Proof.
  split; [reflexivity|]. intros [num_str Hn].
  unfold generate in Hn.
  destruct (generate_io _ _ _ _ _ _ _ _ _ _ _ _ _ _) as [w' r] eqn:Hg.
  apply generate_io_files in Hg as (new & Hfiles & _ & Hnew).
  cbn [fst w_files app] in Hn, Hfiles. rewrite Hfiles in Hn.
  destruct new as [|[name audio] [|? ?]]; cbn in Hn; simplify_eq.
  destruct (Hnew 0%nat _ _ eq_refl) as (parsed & t & base & epoch & Hp & Ht & Hb & He & Hname).
  vm_compute in Hp. vm_compute in Hb. vm_compute in He. simplify_eq.
  cbn in Ht. simplify_eq.
  apply (f_equal String.length) in Hname.
  cbn [batch_size create_inference_model Z.ltb Z.compare Pos.compare Pos.compare_cont
       name_label label_str fmap list_fmap join_comma] in Hname.
  rewrite !string_length_app in Hname. cbn [String.length] in Hname. lia.
Qed.

(** C4, witness: one second at 10 samples per second in frames of 2, under
    the curve through (0, 1), (1/2, 1/2) and (1, 1): each of its two
    segments gives [round(2.5) = 2] values, so the stream ends after 4 of
    the 5 frames and the model is advanced 4 times. *)
Lemma early_exhaustion_witness :
  let m := Stub.build_model 1 2 "logdir/model.ckpt-12" in
  let temperature := [LCurve [0%Q; 1 # 2; 1%Q] [1%Q; 1 # 2; 1%Q]] in
  let parsed := [Curve [0; 5; 10] [1%Q; 1 # 2; 1%Q]] in
  let init := [[128; 128]] in
  let w := {| w_rnn := 0%nat; w_files := [] |} : world Z nat in
  let num_frames := (1 * 10) `div` big_frame_size m in
  let stream := get_temperature parsed num_frames in
  let run := advance_all Stub.advance m (w_rnn w) init (yields stream) in
  (big_frame_size m ≠ 0
   ∧ seeding Stub.quantize_sample m None 0 = Ok init
   ∧ parse_temperature temperature 1 (1 * 10) = Ok parsed
   ∧ ending stream = None
   ∧ (length (yields stream) < Z.to_nat num_frames)%nat)
  ∧ (∃ g, SGen g ∈ make_source num_frames <$> parsed ∧ ending g = None
          ∧ length (yields g) = length (yields stream))
  ∧ (∀ g, SGen g ∈ make_source num_frames <$> parsed →
          (length (yields stream) ≤ length (yields g))%nat)
  ∧ stepping Stub.advance (range_len 0 num_frames) 0 m [init] stream w
    = ({| w_rnn := run.1; w_files := w_files w |}, Ok (init :: run.2))
  ∧ length run.2 = length (yields stream)
  ∧ generate_io Stub.quantize_sample Stub.dequantize_sample Stub.ratio_str Stub.advance
      m "out.wav" "logdir/model.ckpt-12" 1 1 10 temperature None 0 w
    = finalize Stub.dequantize_sample Stub.ratio_str m "out.wav" "logdir/model.ckpt-12"
        parsed (init :: run.2) {| w_rnn := run.1; w_files := w_files w |}.
Proof.
  intros m temperature parsed init w num_frames stream run.
  assert (big_frame_size m ≠ 0) as H1 by (vm_compute; discriminate).
  assert (seeding Stub.quantize_sample m None 0 = Ok init) as H2 by reflexivity.
  assert (parse_temperature temperature 1 (1 * 10) = Ok parsed) as H3 by reflexivity.
  assert (ending stream = None) as H4 by reflexivity.
  assert (length (yields stream) < Z.to_nat num_frames)%nat as H5 by (vm_compute; lia).
  split; [done|].
  exact (early_exhaustion_stops_stepping Stub.quantize_sample Stub.dequantize_sample
           Stub.ratio_str Stub.advance m "out.wav" "logdir/model.ckpt-12" 1 1 10
           temperature None 0 init parsed w H1 H2 H3 H4 H5).
Defined.

(** C8, witness: a seed of 4 samples, frames of 2, offset 3. *)
Lemma seed_length_check_witness :
  let m := create_inference_model Stub.build_model "logdir/model.ckpt-12" 1 2 in
  (0 ≤ 1 ∧ 0 ≤ big_frame_size m)
  ∧ (Z.of_nat (length [1; 2; 3; 4]) < 3 + big_frame_size m →
     Stub.generate "out.wav" "logdir/model.ckpt-12" 2 1 1 6 [LNum 1%Q]
       (Some [1; 2; 3; 4]) 3
     = ({| w_rnn := rnn m; w_files := [] |}, Raise AssertionError))
  ∧ (3 + big_frame_size m ≤ Z.of_nat (length [1; 2; 3; 4]) →
     (Stub.generate "out.wav" "logdir/model.ckpt-12" 2 1 1 6 [LNum 1%Q]
        (Some [1; 2; 3; 4]) 3).2 ≠ Raise AssertionError
     ∧ (0 ≤ 3 →
        seeding Stub.quantize_sample m (Some [1; 2; 3; 4]) 3
        = Ok (replicate (Z.to_nat 1)
                (quantize Stub.quantize_sample m
                   (take (Z.to_nat (big_frame_size m))
                         (drop (Z.to_nat 3) [1; 2; 3; 4])))))).
Proof.
  intros m.
  assert (0 ≤ 1) as H1 by lia.
  assert (0 ≤ big_frame_size m) as H2 by (vm_compute; discriminate).
  split; [done|].
  exact (seed_length_check Stub.quantize_sample Stub.dequantize_sample Stub.ratio_str
           Stub.build_model Stub.advance "out.wav" "logdir/model.ckpt-12" 2 1 1 6
           [LNum 1%Q] [1; 2; 3; 4] 3 H1 H2).
Defined.

(** C8, counterexample: a seed of 4 samples, frames of 2, offset -1.
    [offset + bigFrameSize = 1] does not exceed the seed's length, yet
    seeding does not succeed: the chunk [audio[-1:1]] is empty and writing
    it into the initial frame is a shape error. *)
Lemma negative_offset_seeding_fails :
  -1 + 2 ≤ Z.of_nat (length [1; 2; 3; 4])
  ∧ load_seed_audio [1; 2; 3; 4] (-1) 2 = Ok []
  ∧ seeding Stub.quantize_sample (Stub.build_model 1 2 "logdir/model.ckpt-12")
      (Some [1; 2; 3; 4]) (-1) = Raise ValueError
  ∧ Stub.generate "out.wav" "logdir/model.ckpt-12" 2 1 1 6 [LNum 1%Q]
      (Some [1; 2; 3; 4]) (-1)
    = ({| w_rnn := 0%nat; w_files := [] |}, Raise ValueError).
Proof. split; [vm_compute; discriminate|]. repeat split; reflexivity. Qed.

(** C9, witness: three sequences seeded from offset 1 of a seed of 4
    samples, frames of 2. *)
Lemma seed_shared_by_all_sequences_witness :
  let m := create_inference_model Stub.build_model "logdir/model.ckpt-12" 3 2 in
  seeding Stub.quantize_sample m (Some [1; 2; 3; 4]) 1 = Ok [[2; 3]; [2; 3]; [2; 3]]
  ∧ ∃ bfs chunk row,
      bfs = big_frame_size m
      ∧ load_seed_audio [1; 2; 3; 4] 1 bfs = Ok chunk
      ∧ [[2; 3]; [2; 3]; [2; 3]] = replicate (Z.to_nat 3) row
      ∧ length row = Z.to_nat bfs
      ∧ (∀ c, c ∈ row → c ∈ quantize Stub.quantize_sample m chunk)
      ∧ (0 ≤ 1 →
           chunk = take (Z.to_nat bfs) (drop (Z.to_nat 1) [1; 2; 3; 4])
           ∧ row = quantize Stub.quantize_sample m chunk).
Proof.
  intros m.
  assert (seeding Stub.quantize_sample m (Some [1; 2; 3; 4]) 1
          = Ok [[2; 3]; [2; 3]; [2; 3]]) as H1 by reflexivity.
  split; [done|].
  exact (seed_shared_by_all_sequences Stub.quantize_sample Stub.build_model
           "logdir/model.ckpt-12" 3 2 [1; 2; 3; 4] 1 _ H1).
Defined.

(** ** The dataset pipeline (C5, C6) *)

Lemma py_range_pos lo hi step :
  0 < step →
  py_range lo hi step
  = Ok ((λ k, lo + Z.of_nat k * step) <$> seq 0 (Z.to_nat ((hi - lo + step - 1) `div` step))).
Proof.
  intros Hs. unfold py_range.
  destruct (Z.eqb_spec step 0); [lia|]. by destruct (Z.ltb_spec 0 step); [|lia].
Qed.

Lemma zip_with_app_replicate {A} (z : list A) (l : list (list A)) :
  zip_with app (replicate (length l) z) l = (app z) <$> l.
Proof. induction l as [|row l IH]; [done|]. cbn. by rewrite IH. Qed.

Section DatasetFacts.
Context {sample qtype : Type}.
Variable zero : sample.
Variable quantize_sample : qtype → Z → sample → Z.
Implicit Types b : list (list sample).

(** A padded row: [overlap] zeros, then the row cut to a whole number of
    windows. *)
Lemma pad_batch_Ok b batch_size seq_len overlap (n : nat) :
  0 < seq_len → 0 ≤ overlap → b ≠ [] → Z.of_nat (length b) = batch_size →
  (∀ row, row ∈ b → length row = n) →
  pad_batch zero b batch_size seq_len overlap
  = Ok ((λ row, replicate (Z.to_nat overlap) zero
                ++ take (Z.to_nat (Z.of_nat n `div` seq_len) * Z.to_nat seq_len) row) <$> b).
Proof.
  intros Hs Hov Hne HB Hrows. unfold pad_batch.
  destruct b as [|r0 b']; [done|]. cbn [first_row mbind result_bind].
  rewrite (Hrows r0) by (apply elem_of_cons; by left).
  unfold floordiv. destruct (Z.eqb_spec seq_len 0); [lia|]. cbn [mbind result_bind].
  unfold np_zeros.
  destruct (Z.ltb_spec batch_size 0); [lia|]. destruct (Z.ltb_spec overlap 0); [lia|].
  cbn [orb mbind result_bind tf_concat concat_rows].
  rewrite length_fmap, length_replicate.
  replace (Z.to_nat batch_size) with (length (r0 :: b')) by lia.
  rewrite Nat.eqb_refl.
  rewrite <- (length_fmap (py_slice None (Some (Z.of_nat n `div` seq_len * seq_len)))
                (r0 :: b')).
  rewrite zip_with_app_replicate, <- list_fmap_compose. f_equal.
  apply list_fmap_ext. intros i row Hrow. cbn.
  assert (0 ≤ Z.of_nat n `div` seq_len) by (apply Z.div_pos; lia).
  rewrite py_slice_to_nonneg by nia. by rewrite Z2Nat.inj_mul by lia.
Qed.

(** The window that starts [k] windows into a padded row. *)
Lemma window_slice (prow : list sample) seq_len overlap (k q : nat) :
  0 < seq_len → 0 ≤ overlap → (k < q)%nat →
  length prow = (Z.to_nat overlap + q * Z.to_nat seq_len)%nat →
  py_slice (Some (overlap + Z.of_nat k * seq_len - overlap))
           (Some (overlap + Z.of_nat k * seq_len + seq_len)) prow
  = take (Z.to_nat overlap + Z.to_nat seq_len) (drop (k * Z.to_nat seq_len) prow).
Proof.
  intros Hs Hov Hk Hlen. rewrite py_slice_window by nia.
  f_equal; [lia|]. f_equal. lia.
Qed.

(** The windows of a padded batch, row by row. *)
Lemma window_batch_padded b seq_len overlap q_type q_levels (n : nat) :
  0 < seq_len → 0 ≤ overlap → b ≠ [] →
  (∀ row, row ∈ b → length row = n) →
  let s := Z.to_nat seq_len in
  let ov := Z.to_nat overlap in
  let q := Z.to_nat (Z.of_nat n `div` seq_len) in
  let pad := λ row : list sample, replicate ov zero ++ take (q * s) row in
  window_batch quantize_sample (pad <$> b) seq_len overlap q_type q_levels
  = Ok ((λ k : nat,
          let x := (λ row, quantize_sample q_type q_levels <$>
                             take (ov + s) (drop (k * s) (pad row))) <$> b in
          (x, drop ov <$> x)) <$> seq 0 q).
Proof.
  intros Hs Hov Hne Hrows s ov q pad.
  assert (0 ≤ Z.of_nat n `div` seq_len) as Hq by (apply Z.div_pos; lia).
  assert (q * s ≤ n)%nat as Hqs.
  { pose proof (Z.mul_div_le (Z.of_nat n) seq_len Hs). unfold q, s. nia. }
  assert (∀ row, row ∈ b → length (pad row) = (ov + q * s)%nat) as Hpad.
  { intros row Hrow. unfold pad.
    rewrite length_app, length_replicate, length_take, (Hrows row Hrow). lia. }
  unfold window_batch. destruct b as [|r0 b'] eqn:Hb; [done|]. rewrite <- Hb in *.
  assert (first_row (pad <$> b) = Ok (pad r0)) as -> by (by rewrite Hb).
  cbn [mbind result_bind].
  rewrite (Hpad r0) by (rewrite Hb; apply elem_of_cons; by left).
  rewrite py_range_pos by done. cbn [mbind result_bind]. f_equal.
  replace (Z.to_nat ((Z.of_nat (ov + q * s) - overlap + seq_len - 1) `div` seq_len))
    with q; cycle 1.
  { replace (Z.of_nat (ov + q * s) - overlap + seq_len - 1)
      with (Z.of_nat q * seq_len + (seq_len - 1)) by (unfold ov, s; nia).
    rewrite Z.div_add_l by lia. rewrite Z.div_small by lia. lia. }
  rewrite <- list_fmap_compose. apply list_fmap_ext. intros i k Hk.
  apply lookup_seq in Hk as [-> Hk]. cbn [Nat.add]. unfold compose, window_at.
  assert ((λ row, quantize_sample q_type q_levels <$>
             py_slice (Some (overlap + Z.of_nat i * seq_len - overlap))
                      (Some (overlap + Z.of_nat i * seq_len + seq_len)) row) <$> (pad <$> b)
          = (λ row, quantize_sample q_type q_levels <$>
               take (ov + s) (drop (i * s) (pad row))) <$> b) as ->.
  { rewrite <- list_fmap_compose. apply list_fmap_ext. intros j row Hrow. cbn.
    apply list_elem_of_lookup_2 in Hrow.
    by rewrite (window_slice _ _ _ i q) by (try done; by apply Hpad). }
  f_equal. apply list_fmap_ext. intros j xr Hxr.
  apply list_lookup_fmap_Some in Hxr as (row & -> & Hrow).
  apply list_elem_of_lookup_2 in Hrow.
  rewrite py_slice_window; [| lia | lia |].
  - replace (Z.to_nat (overlap + seq_len - overlap)) with s by lia.
    apply take_ge. rewrite length_drop, length_fmap, length_take, length_drop.
    rewrite (Hpad row Hrow). fold ov. nia.
  - rewrite length_fmap, length_take, length_drop, (Hpad row Hrow). unfold ov, s. nia.
Qed.

(** C5: the windows of a padded batch.  For a batch of [batch_size] rows
    of equal length, padding and windowing succeed and give one window
    per whole [seqLen] samples; in every window each row of [x] has
    [overlap + seqLen] codes and [y] is [x] without its first [overlap]
    codes, that is its trailing [seqLen] codes; and for two consecutive
    windows the last [overlap] codes of each row of the first are the
    first [overlap] codes of the same row of the second. *)
Theorem window_contiguity b batch_size seq_len overlap q_type q_levels (n : nat) :
  0 < seq_len → 0 ≤ overlap → b ≠ [] → Z.of_nat (length b) = batch_size →
  (∀ row, row ∈ b → length row = n) →
  ∃ padded ws,
    pad_batch zero b batch_size seq_len overlap = Ok padded
    ∧ window_batch quantize_sample padded seq_len overlap q_type q_levels = Ok ws
    ∧ length ws = Z.to_nat (Z.of_nat n `div` seq_len)
    ∧ (∀ k x y, ws !! k = Some (x, y) →
         length x = length b
         ∧ y = drop (Z.to_nat overlap) <$> x
         ∧ (∀ row, row ∈ x → length row = (Z.to_nat overlap + Z.to_nat seq_len)%nat)
         ∧ (∀ row, row ∈ y → length row = Z.to_nat seq_len))
    ∧ (∀ k x y x' y' r xr xr',
         ws !! k = Some (x, y) → ws !! S k = Some (x', y') →
         x !! r = Some xr → x' !! r = Some xr' →
         drop (length xr - Z.to_nat overlap) xr = take (Z.to_nat overlap) xr').
Proof.
  intros Hs Hov Hne HB Hrows.
  pose proof (window_batch_padded b seq_len overlap q_type q_levels n Hs Hov Hne Hrows)
    as Hw. cbv zeta in Hw.
  set (s := Z.to_nat seq_len) in *. set (ov := Z.to_nat overlap) in *.
  set (q := Z.to_nat (Z.of_nat n `div` seq_len)) in *.
  set (pad := λ row : list sample, replicate ov zero ++ take (q * s) row) in *.
  assert (q * s ≤ n)%nat as Hqs.
  { pose proof (Z.mul_div_le (Z.of_nat n) seq_len Hs).
    assert (0 ≤ Z.of_nat n `div` seq_len) by (apply Z.div_pos; lia). unfold q, s. nia. }
  assert (∀ row, row ∈ b → length (pad row) = (ov + q * s)%nat) as Hpad.
  { intros row Hrow. unfold pad.
    rewrite length_app, length_replicate, length_take, (Hrows row Hrow). lia. }
  set (xk := λ k : nat, (λ row, quantize_sample q_type q_levels <$>
                           take (ov + s) (drop (k * s) (pad row))) <$> b) in *.
  assert (∀ k row, (k < q)%nat → row ∈ xk k → length row = (ov + s)%nat) as Hxlen.
  { intros k row Hk Hrow. apply list_elem_of_fmap in Hrow as (r0 & -> & Hr0).
    rewrite length_fmap, length_take, length_drop, (Hpad r0 Hr0). nia. }
  exists (pad <$> b), ((λ k : nat, (xk k, drop ov <$> xk k)) <$> seq 0 q).
  split; [exact (pad_batch_Ok b batch_size seq_len overlap n Hs Hov Hne HB Hrows)|].
  split; [exact Hw|].
  split; [by rewrite length_fmap, length_seq|].
  split.
  - intros k x y Hk. apply list_lookup_fmap_Some in Hk as (k' & Heq & Hk).
    apply lookup_seq in Hk as [-> Hk]. cbn [Nat.add] in Heq. simplify_eq.
    split; [unfold xk; by rewrite length_fmap|]. split; [done|]. split.
    + intros row Hrow. by apply (Hxlen k).
    + intros row Hrow. apply list_elem_of_fmap in Hrow as (xr & -> & Hxr).
      rewrite length_drop, (Hxlen k xr Hk Hxr). lia.
  - intros k x y x' y' r xr xr' Hk Hk' Hr Hr'.
    apply list_lookup_fmap_Some in Hk as (k0 & Heq & Hk).
    apply lookup_seq in Hk as [-> Hk]. cbn [Nat.add] in Heq.
    apply list_lookup_fmap_Some in Hk' as (k1 & Heq' & Hk').
    apply lookup_seq in Hk' as [-> Hk']. cbn [Nat.add] in Heq'. simplify_eq.
    assert (length xr = (ov + s)%nat) as Hlen
      by (apply (Hxlen k); [done|by eapply list_elem_of_lookup_2]).
    unfold xk in Hr, Hr'.
    apply list_lookup_fmap_Some in Hr as (r0 & -> & Hr0).
    apply list_lookup_fmap_Some in Hr' as (r1 & -> & Hr1).
    rewrite Hr0 in Hr1. simplify_eq.
    rewrite Hlen. replace (ov + s - ov)%nat with s by lia.
    rewrite <- fmap_drop, <- fmap_take. f_equal.
    rewrite take_take. replace (ov `min` (ov + s))%nat with ov by lia.
    replace (ov + s)%nat with (s + ov)%nat by lia.
    rewrite <- take_drop_commute, drop_drop. f_equal. f_equal. lia.
Qed.

End DatasetFacts.

(** C5, witness: two rows of five samples, windows of 2 with overlap 1;
    samples are integers and are their own codes. *)
Lemma window_contiguity_witness :
  let b := [[1; 2; 3; 4; 5]; [6; 7; 8; 9; 10]] in
  (0 < 2 ∧ 0 ≤ 1 ∧ b ≠ [] ∧ Z.of_nat (length b) = 2
   ∧ ∀ row, row ∈ b → length row = 5%nat)
  ∧ ∃ padded ws,
      pad_batch 0 b 2 2 1 = Ok padded
      ∧ window_batch Stub.quantize_sample padded 2 1 () 256 = Ok ws
      ∧ length ws = Z.to_nat (Z.of_nat 5 `div` 2)
      ∧ (∀ k x y, ws !! k = Some (x, y) →
           length x = length b
           ∧ y = drop (Z.to_nat 1) <$> x
           ∧ (∀ row, row ∈ x → length row = (Z.to_nat 1 + Z.to_nat 2)%nat)
           ∧ (∀ row, row ∈ y → length row = Z.to_nat 2))
      ∧ (∀ k x y x' y' r xr xr',
           ws !! k = Some (x, y) → ws !! S k = Some (x', y') →
           x !! r = Some xr → x' !! r = Some xr' →
           drop (length xr - Z.to_nat 1) xr = take (Z.to_nat 1) xr').
Proof.
  intros b.
  assert (0 < 2) as H1 by lia.
  assert (0 ≤ 1) as H2 by lia.
  assert (b ≠ []) as H3 by discriminate.
  assert (Z.of_nat (length b) = 2) as H4 by reflexivity.
  assert (∀ row, row ∈ b → length row = 5%nat) as H5.
  { intros row Hrow. repeat (apply elem_of_cons in Hrow as [->|Hrow]; [reflexivity|]).
    by apply elem_of_nil in Hrow. }
  split; [done|].
  exact (window_contiguity 0 Stub.quantize_sample b 2 2 1 () 256 5 H1 H2 H3 H4 H5).
Defined.

(** The windows of that batch: the leading zero of the padding, and the
    last sample of each row dropped. *)
Example window_batch_example :
  (padded ← pad_batch 0 [[1; 2; 3; 4; 5]; [6; 7; 8; 9; 10]] 2 2 1;
   window_batch Stub.quantize_sample padded 2 1 () 256)
  = Ok [([[0; 1; 2]; [0; 6; 7]], [[1; 2]; [6; 7]]);
        ([[2; 3; 4]; [7; 8; 9]], [[3; 4]; [8; 9]])].
Proof. reflexivity. Qed.

Section SplitClaims.
Variable shuffle : list string → list string.
Hypothesis shuffle_perm : ∀ l, shuffle l ≡ₚ l.



End SplitClaims.


(** The split of that example. *)
Example split_files_example :
  get_dataset_filenames_split reverse ["a.wav"; "b.wav"; "c.wav"] (Double.decimal 1 2)
  = Ok (["c.wav"], ["b.wav"; "a.wav"]).
Proof. vm_compute. reflexivity. Qed.


(** * Further properties of the code *)

(** ** The driver: all or nothing *)


Section AllOrNothing.
Context {F : Type} `{PyNum F}.
Context {sample qtype model_state config : Type}.
Variable quantize_sample : qtype → Z → sample → Z.
Variable dequantize_sample : qtype → Z → Z → sample.
Variable num_str : F → string.
Variable build_model : Z → config → string → SampleRNN qtype model_state.
Variable advance : SampleRNN qtype model_state → tensor → list F → model_state * tensor.
Implicit Types m : SampleRNN qtype model_state.
Implicit Types w : world sample model_state.





End AllOrNothing.

(** ** The stepping loop against the reference run *)

Section SteppingExtras.
Context {F : Type} `{PyNum F}.
Context {sample qtype model_state config : Type}.
Variable quantize_sample : qtype → Z → sample → Z.
Variable dequantize_sample : qtype → Z → Z → sample.
Variable num_str : F → string.
Variable build_model : Z → config → string → SampleRNN qtype model_state.
Variable advance : SampleRNN qtype model_state → tensor → list F → model_state * tensor.
Implicit Types m : SampleRNN qtype model_state.
Implicit Types w : world sample model_state.

(** X2: the stepping loop is the autoregressive run.  From the initial
    frame, and for a temperature stream that does not raise within the
    loop's [n] pulls, it returns the initial frame followed by the frames
    of the reference run over the first [n] temperature vectors: each call
    of the model is on the frame produced by the call before ([samples[i]]
    is always the newest frame), with the next vector of the stream, and
    the model is left in the state after the last call. *)
Theorem stepping_is_reference_run m n (g : gen (list F)) init w :
  ending g = None ∨ (n ≤ length (yields g))%nat →
  stepping advance n 0 m [init] g w
  = ({| w_rnn := (advance_all advance m (w_rnn w) init (take n (yields g))).1;
        w_files := w_files w |},
     Ok (init :: (advance_all advance m (w_rnn w) init (take n (yields g))).2))
  ∧ length (advance_all advance m (w_rnn w) init (take n (yields g))).2
    = (n `min` length (yields g))%nat.
Proof.
  intros Hg. split.
  - by rewrite (stepping_spec advance m n g 0 [init] init w).
  - by rewrite advance_all_length, length_take.
Qed.

(** X3: only [StopIteration] is swallowed by the stepping loop.  If the
    temperature stream raises another error after [k < n] vectors (a
    [ZeroDivisionError] or [IndexError] of an interpolation generator), the
    loop raises that error, after exactly [k] calls of the model, and the
    frames generated so far are lost with it. *)
Theorem stepping_propagates_stream_error m n (g : gen (list F)) init w e :
  ending g = Some e → e ≠ StopIteration → (length (yields g) < n)%nat →
  stepping advance n 0 m [init] g w
  = ({| w_rnn := (advance_all advance m (w_rnn w) init (yields g)).1;
        w_files := w_files w |}, Raise e).
Proof.
  intros He Hne Hlt.
  by rewrite (stepping_fails advance m n g 0 [init] init w e).
Qed.

(** X4: an empty temperature list never gives output.  For [numSeqs >= 1]
    the call raises (at the parse when [numSeqs > 1]; with one sequence
    only at the naming of the file, after all the stepping) and no file is
    written. *)
Theorem generate_empty_temperature_raises path ckpt_path cfg num_seqs dur sample_rate
    seed seed_offset :
  1 ≤ num_seqs →
  ∃ e,
    (generate quantize_sample dequantize_sample num_str build_model advance
       path ckpt_path cfg num_seqs dur sample_rate [] seed seed_offset).2 = Raise e
    ∧ w_files
        (generate quantize_sample dequantize_sample num_str build_model advance
           path ckpt_path cfg num_seqs dur sample_rate [] seed seed_offset).1 = [].
Proof.
  intros Hn.
  destruct (generate _ _ _ _ _ _ _ _ _ _ _ _ _ _) as [w' r] eqn:Hg. cbn [fst snd].
  unfold generate in Hg.
  apply generate_io_files in Hg as (new & Hfiles & Hlen & Hnew).
  cbn [w_files app batch_size create_inference_model] in Hfiles, Hlen.
  assert (new = []) as ->.
  { destruct new as [|[name audio] new]; [done|].
    destruct (Hnew 0%nat _ _ eq_refl) as (parsed & t & _ & _ & Hp & Ht & _).
    unfold parse_temperature in Hp. cbn in Hp. change (Z.of_nat 0) with 0 in Hp.
    destruct (1 <? num_seqs); [|by simplify_eq].
    destruct (Z.ltb_spec 0 num_seqs); [|lia]. by rewrite py_index_nil in Hp. }
  destruct r as [[]|e].
  - specialize (Hlen eq_refl). cbn in Hlen. lia.
  - by exists e.
Qed.

End SteppingExtras.

(** X2, witness: the stub model stepped three times under a stream of
    three vectors. *)
Lemma stepping_is_reference_run_witness :
  let m := Stub.build_model 1 2 "logdir/model.ckpt-12" in
  let g := get_temperature [Const 1%Q] 3 in
  let w := {| w_rnn := 0%nat; w_files := [] |} : world Z nat in
  (ending g = None ∨ (3 ≤ length (yields g))%nat)
  ∧ stepping Stub.advance 3 0 m [[[128; 128]]] g w
    = ({| w_rnn := (advance_all Stub.advance m (w_rnn w) [[128; 128]]
                      (take 3 (yields g))).1;
          w_files := w_files w |},
       Ok ([[128; 128]] :: (advance_all Stub.advance m (w_rnn w) [[128; 128]]
                              (take 3 (yields g))).2))
    ∧ length (advance_all Stub.advance m (w_rnn w) [[128; 128]] (take 3 (yields g))).2
      = (3 `min` length (yields g))%nat.
Proof.
  intros m g w.
  assert (ending g = None ∨ (3 ≤ length (yields g))%nat) as H1 by (left; reflexivity).
  split; [done|].
  exact (stepping_is_reference_run (sample:=Z) Stub.advance m 3 g [[128; 128]] w H1).
Defined.

(** X3, witness: a curve whose second segment has two equal x-points.  Its
    first segment gives 5 values, then the generator divides by zero. *)
Lemma stepping_propagates_stream_error_witness :
  let m := Stub.build_model 1 2 "logdir/model.ckpt-12" in
  let g := get_temperature [Curve [0; 5; 5; 10] [1%Q; 1 # 2; 1 # 2; 1%Q]] 10 in
  let w := {| w_rnn := 0%nat; w_files := [] |} : world Z nat in
  (ending g = Some ZeroDivisionError ∧ ZeroDivisionError ≠ StopIteration
   ∧ (length (yields g) < 10)%nat)
  ∧ stepping Stub.advance 10 0 m [[[128; 128]]] g w
    = ({| w_rnn := (advance_all Stub.advance m (w_rnn w) [[128; 128]] (yields g)).1;
          w_files := w_files w |}, Raise ZeroDivisionError).
Proof.
  intros m g w.
  assert (ending g = Some ZeroDivisionError) as H1 by reflexivity.
  assert (ZeroDivisionError ≠ StopIteration) as H2 by discriminate.
  assert (length (yields g) < 10)%nat as H3 by (vm_compute; lia).
  split; [done|].
  exact (stepping_propagates_stream_error (sample:=Z) Stub.advance m 10 g
           [[128; 128]] w ZeroDivisionError H1 H2 H3).
Defined.

(** X4, witness: one sequence and no temperature. *)
Lemma generate_empty_temperature_raises_witness :
  1 ≤ 1
  ∧ ∃ e,
      (Stub.generate "out.wav" "logdir/model.ckpt-12" 2 1 1 6 [] None 0).2 = Raise e
      ∧ w_files (Stub.generate "out.wav" "logdir/model.ckpt-12" 2 1 1 6 [] None 0).1 = [].
Proof.
  assert (1 ≤ 1) as H1 by lia.
  split; [done|].
  exact (generate_empty_temperature_raises Stub.quantize_sample Stub.dequantize_sample
           Stub.ratio_str Stub.build_model Stub.advance
           "out.wav" "logdir/model.ckpt-12" 2 1 1 6 None 0 H1).
Defined.

(** ** The temperature stream: shape, length and degenerate curves *)

Section ScheduleExtras.
Context {F : Type} `{PyNum F}.
Implicit Types temps : list (tsource F).

Lemma pull_Ok_sources temps out temps' :
  pull temps = Ok (out, temps') →
  length temps' = length temps
  ∧ ∀ i c, temps !! i = Some (SConst c) →
      out !! i = Some c ∧ temps' !! i = Some (SConst c).
Proof.
  revert out temps'. induction temps as [|s temps IH]; intros out temps' Hp.
  - cbn in Hp. simplify_eq. split; [done|]. intros i c Hi. by rewrite lookup_nil in Hi.
  - destruct s as [v|g0]; cbn [pull] in Hp.
    + destruct (pull temps) as [[out0 rest]|e] eqn:E; cbn in Hp; simplify_eq.
      destruct (IH _ _ eq_refl) as (Hlen & Hc). split; [cbn; by rewrite Hlen|].
      intros [|i] c Hi; cbn in Hi |- *; [by simplify_eq|by apply Hc].
    + destruct g0 as [a0 g0'| |e0]; cbn in Hp; simplify_eq.
      destruct (pull temps) as [[out0 rest]|e] eqn:E; cbn in Hp; simplify_eq.
      destruct (IH _ _ eq_refl) as (Hlen & Hc). split; [cbn; by rewrite Hlen|].
      intros [|i] c Hi; cbn in Hi |- *; [by simplify_eq|by apply Hc].
Qed.

Lemma temperature_loop_vectors n : ∀ temps v,
  v ∈ yields (temperature_loop n temps) →
  length v = length temps
  ∧ ∀ i c, temps !! i = Some (SConst c) → v !! i = Some c.
Proof.
  induction n as [|n IH]; intros temps v Hv; [by apply elem_of_nil in Hv|].
  cbn [temperature_loop] in Hv.
  destruct (pull temps) as [[out temps']|e] eqn:Hp.
  - destruct (pull_Ok_inv _ _ _ Hp) as (Hlen & _).
    destruct (pull_Ok_sources _ _ _ Hp) as (Hlen' & Hc).
    cbn [yields] in Hv. apply elem_of_cons in Hv as [->|Hv].
    + split; [done|]. intros i c Hi. by apply Hc.
    + destruct (IH _ _ Hv) as (Hl & Hcs). split; [by rewrite Hl|].
      intros i c Hi. apply Hcs. by apply Hc.
  - destruct e; by apply elem_of_nil in Hv.
Qed.

Lemma temperature_loop_count n : ∀ temps,
  (length (yields (temperature_loop n temps)) ≤ n)%nat.
Proof.
  induction n as [|n IH]; intros temps; [done|].
  cbn [temperature_loop]. destruct (pull temps) as [[out temps']|e].
  - cbn. specialize (IH temps'). lia.
  - destruct e; cbn; lia.
Qed.

(** X5: the shape of the temperature stream.  [get_temperature] yields at
    most [nsamps] vectors (none for [nsamps <= 0]); every vector has one
    entry per parsed spec, in the order of the specs, and the entry of a
    scalar spec is that scalar at every frame. *)
Theorem temperature_stream_shape (parsed : list (tspec F)) nsamps :
  (length (yields (get_temperature parsed nsamps)) ≤ Z.to_nat nsamps)%nat
  ∧ ∀ v, v ∈ yields (get_temperature parsed nsamps) →
      length v = length parsed
      ∧ ∀ i c, parsed !! i = Some (Const c) → v !! i = Some c.
Proof.
  unfold get_temperature. split.
  - etransitivity; [apply temperature_loop_count|]. unfold range_len. lia.
  - intros v Hv. apply temperature_loop_vectors in Hv as (Hlen & Hc).
    rewrite length_fmap in Hlen. split; [done|].
    intros i c Hi. apply Hc. by rewrite list_lookup_fmap, Hi.
Qed.

(** Scalars ahead of a generator are pulled before it. *)
Lemma pull_after_consts (vs : list F) temps :
  pull ((SConst <$> vs) ++ temps)
  = '(out, rest) ← pull temps; Ok (vs ++ out, (SConst <$> vs) ++ rest).
Proof.
  induction vs as [|v vs IH]; cbn [fmap list_fmap app pull].
  - by destruct (pull temps) as [[? ?]|?].
  - fold (fmap (M:=list) (@SConst F) vs). rewrite IH.
    by destruct (pull temps) as [[? ?]|?].
Qed.

Lemma get_temperature_first_generator (vs : list F) xs ys rest nsamps e :
  0 < nsamps →
  next (interpolgen nsamps xs ys) = Raise e →
  get_temperature ((Const <$> vs) ++ Curve xs ys :: rest) nsamps
  = match e with StopIteration => Exhausted | _ => Fails e end.
Proof.
  intros Hn Hnext. unfold get_temperature, range_len.
  destruct (Z.to_nat (nsamps - 0)) as [|k] eqn:Hk; [lia|].
  cbn [temperature_loop].
  rewrite fmap_app, make_source_consts. cbn [fmap list_fmap make_source].
  rewrite pull_after_consts. cbn [pull]. rewrite Hnext. done.
Qed.

(** X7: a curve without a segment ends the stream at once.  If a curve
    spec has at least one x-point, and has a single x-point or at most one
    y-value, and only scalar specs precede it, the temperature stream
    yields nothing and ends: the stepping loop then generates no frame,
    without an error.  (With no x-point at all, [xpoints[-1]] raises
    instead.) *)
Theorem curve_without_segment_exhausts (vs : list F) xs ys rest nsamps :
  xs ≠ [] → (length xs = 1 ∨ length ys ≤ 1)%nat →
  get_temperature ((Const <$> vs) ++ Curve xs ys :: rest) nsamps = Exhausted.
Proof.
  intros Hne Hshort. destruct (Z.le_gt_cases nsamps 0) as [Hn|Hn].
  { unfold get_temperature, range_len. by replace (Z.to_nat (nsamps - 0)) with 0%nat by lia. }
  apply (get_temperature_first_generator vs xs ys rest nsamps StopIteration); [lia|].
  unfold interpolgen.
  destruct (exists_last Hne) as (front & last_x & ->). rewrite py_index_last.
  cbn [mbind result_bind]. destruct (Z.eqb_spec nsamps 0); [lia|].
  assert (zip (zip (front ++ [last_x]) (tail (front ++ [last_x]))) (zip ys (tail ys)) = [])
    as ->; [|done].
  destruct Hshort as [Hx|Hy].
  - by destruct front as [|? [|? ?]].
  - apply nil_length_inv. rewrite !length_zip_with.
    destruct ys as [|y [|? ?]]; cbn in Hy |- *; lia.
Qed.

End ScheduleExtras.

(** X7, witness: the curve with the single point (0, 1). *)
Lemma curve_without_segment_exhausts_witness :
  ([0] ≠ [] ∧ (length [0] = 1 ∨ length [1%Q] ≤ 1)%nat)
  ∧ get_temperature ((Const <$> [1 # 2]) ++ Curve [0] [1%Q] :: []) 5 = Exhausted.
Proof.
  assert ([0] ≠ []) as H1 by discriminate.
  assert (length [0] = 1 ∨ length [1%Q] ≤ 1)%nat as H2 by (left; reflexivity).
  split; [done|].
  exact (curve_without_segment_exhausts (F:=Q) [1 # 2] [0] [1%Q] [] 5 H1 H2).
Defined.

(** ** The interpolation generator, in the arithmetic of the program *)

Section CurveExtras.
Context {F : Type} `{PyNum F}.

(** X6: two equal x-points at the start of a curve make the stream divide
    by zero.  For a curve with at least two y-values whose first two
    x-points are equal (two fractions that fall on the same sample index),
    with only scalar specs before it and [nsamps > 0], the first pull of
    the stream raises [ZeroDivisionError]: [dx = xpoints[-1] / nsamps] is
    zero, or else [xn = 0 / dx] is and [dy = ydiff / xn] divides by it.
    The one fact of arithmetic used is that [0 / dx] is zero for this
    [dx] when [dx] is not; it holds of every double that is not a NaN. *)
Theorem duplicate_x_points_divide_by_zero (vs : list F) x xs y0 y1 ys rest nsamps last_x :
  0 < nsamps →
  py_index (x :: x :: xs) (-1) = Ok last_x →
  (num_is_zero (num_div (of_int last_x) (of_int nsamps)) = false →
   num_is_zero (num_div (of_int 0) (num_div (of_int last_x) (of_int nsamps))) = true) →
  get_temperature ((Const <$> vs) ++ Curve (x :: x :: xs) (y0 :: y1 :: ys) :: rest) nsamps
  = Fails ZeroDivisionError.
Proof.
  intros Hn Hlast Hzero.
  apply (get_temperature_first_generator vs _ _ rest nsamps ZeroDivisionError); [done|].
  unfold interpolgen. rewrite Hlast.
  cbn [mbind result_bind]. destruct (Z.eqb_spec nsamps 0); [lia|].
  cbn [tail zip_with interpol_segments]. unfold py_div. rewrite Z.sub_diag.
  destruct (num_is_zero (num_div (of_int last_x) (of_int nsamps))) eqn:Ez; [done|].
  cbn [mbind result_bind]. by rewrite (Hzero eq_refl).
Qed.

(** The values of one segment: each is the one before plus the step. *)
Lemma ramp_lookup n (dx dy : F) : ∀ cx cy rest j,
  (j < n)%nat →
  yields (ramp n dx dy cx cy rest) !! j
  = Some (Nat.iter (S j) (λ c, num_add c dx) cx, Nat.iter (S j) (λ c, num_add c dy) cy).
Proof.
  induction n as [|n IH]; intros cx cy rest j Hj; [lia|].
  cbn [ramp yields]. destruct j as [|j]; [done|].
  cbn [lookup list_lookup]. rewrite (IH _ _ rest j) by lia.
  by rewrite !(Nat.iter_succ_r (S j)).
Qed.

(** X8: the values of the first segment are accumulated.  With
    [dx = xpoints[-1] / nsamps], [xn = (x1 - x0) / dx] and
    [dy = (y1 - y0) / xn] as the program computes them, and neither [dx]
    nor [xn] zero, the [j]-th value the generator yields, for
    [j < round(xn)], is obtained from [(x0 - dx, y0 - dy)] by [j + 1]
    additions of [(dx, dy)], each in the arithmetic of the program.  The
    values are not computed as [y0 + j * dy]: in doubles every addition is
    rounded, and already the first value [(y0 - dy) + dy] need not be
    [y0]. *)
Theorem first_segment_accumulates nsamps x0 x1 xs (y0 y1 : F) ys last_x j :
  nsamps ≠ 0 →
  py_index (x0 :: x1 :: xs) (-1) = Ok last_x →
  let dx := num_div (of_int last_x) (of_int nsamps) in
  let xn := num_div (of_int (x1 - x0)) dx in
  let dy := num_div (num_sub y1 y0) xn in
  num_is_zero dx = false → num_is_zero xn = false →
  (j < Z.to_nat (num_round xn))%nat →
  yields (interpolgen nsamps (x0 :: x1 :: xs) (y0 :: y1 :: ys)) !! j
  = Some (Nat.iter (S j) (λ c, num_add c dx) (num_sub (of_int x0) dx),
          Nat.iter (S j) (λ c, num_add c dy) (num_sub y0 dy)).
Proof.
  intros Hn Hlast dx xn dy Hdx Hxn Hj.
  unfold interpolgen. rewrite Hlast. cbn [mbind result_bind].
  destruct (Z.eqb_spec nsamps 0); [done|].
  cbn [tail zip_with interpol_segments]. unfold py_div. fold dx.
  rewrite Hdx. cbn [mbind result_bind]. fold xn. rewrite Hxn.
  cbn [mbind result_bind]. fold dy.
  apply ramp_lookup. unfold range_len. lia.
Qed.

(** X15: how many values a two-point curve gives.  With
    [dx = x1 / nsamps] and [xn = (x1 - x0) / dx] as the program computes
    them, and neither zero, the generator of a curve with the x-points
    [x0] and [x1] yields [round(xn)] values (none when that is negative)
    and is then exhausted, without an error. *)
Theorem two_point_curve_frame_count nsamps x0 x1 (y0 y1 : F) :
  nsamps ≠ 0 →
  let dx := num_div (of_int x1) (of_int nsamps) in
  let xn := num_div (of_int (x1 - x0)) dx in
  num_is_zero dx = false → num_is_zero xn = false →
  length (yields (interpolgen nsamps [x0; x1] [y0; y1])) = Z.to_nat (num_round xn)
  ∧ ending (interpolgen nsamps [x0; x1] [y0; y1]) = None.
Proof.
  intros Hn dx xn Hdx Hxn.
  unfold interpolgen.
  assert (py_index [x0; x1] (-1) = Ok x1) as -> by apply (py_index_last [x0]).
  cbn [mbind result_bind]. destruct (Z.eqb_spec nsamps 0); [done|].
  cbn [tail zip_with interpol_segments]. unfold py_div. fold dx.
  rewrite Hdx. cbn [mbind result_bind]. fold xn. rewrite Hxn.
  cbn [mbind result_bind].
  rewrite ramp_yields, ramp_ending. cbn [yields ending length].
  split; [|done]. unfold range_len. lia.
Qed.

End CurveExtras.

(** X6, witness: in doubles, the fractions 0.1 and 0.15 of 10 samples both
    fall on sample 1. *)
Lemma duplicate_x_points_divide_by_zero_witness :
  let one := Double.of_int 1 in
  let half := Double.decimal 1 2 in
  (0 < 5
   ∧ py_index [1; 1; 10] (-1) = Ok 10
   ∧ (num_is_zero (num_div (of_int 10) (of_int 5)) = false →
      num_is_zero (num_div (of_int 0) (num_div (of_int 10) (of_int 5))) = true)
   ∧ parse_temperature
       [LCurve [Double.decimal 1 10; Double.decimal 15 100; one] [one; half; one]] 1 10
     = Ok [Curve [1; 1; 10] [one; half; one]])
  ∧ get_temperature ((Const <$> []) ++ Curve [1; 1; 10] [one; half; one] :: []) 5
    = Fails ZeroDivisionError.
Proof.
  intros one half.
  assert (0 < 5) as H1 by lia.
  assert (py_index [1; 1; 10] (-1) = Ok 10) as H2 by reflexivity.
  assert (num_is_zero (num_div (of_int 10) (of_int 5)) = false →
          num_is_zero (num_div (F:=spec_float) (of_int 0) (num_div (of_int 10) (of_int 5)))
          = true) as H3 by (intros _; vm_compute; reflexivity).
  split; [split; [done|]; split; [done|]; split; [done|]; vm_compute; reflexivity|].
  exact (duplicate_x_points_divide_by_zero [] 1 [10] one half [one] [] 5 10 H1 H2 H3).
Defined.

(** X8, witness: in doubles, the curve from (0, 1) to (8, 0.9) over 4
    frames; its third value. *)
Lemma first_segment_accumulates_witness :
  let y0 := Double.of_int 1 in
  let y1 := Double.decimal 9 10 in
  let dx := num_div (of_int 8) (of_int 4) in
  let xn := num_div (of_int (8 - 0)) dx in
  let dy := num_div (num_sub y1 y0) xn in
  (4 ≠ 0 ∧ py_index [0; 8] (-1) = Ok 8
   ∧ num_is_zero dx = false ∧ num_is_zero xn = false
   ∧ (2 < Z.to_nat (num_round xn))%nat)
  ∧ yields (interpolgen 4 [0; 8] [y0; y1]) !! 2%nat
    = Some (Nat.iter 3 (λ c, num_add c dx) (num_sub (of_int 0) dx),
            Nat.iter 3 (λ c, num_add c dy) (num_sub y0 dy)).
Proof.
  intros y0 y1 dx xn dy.
  assert (4 ≠ 0) as H1 by discriminate.
  assert (py_index [0; 8] (-1) = Ok 8) as H2 by reflexivity.
  assert (num_is_zero dx = false) as H3 by (vm_compute; reflexivity).
  assert (num_is_zero xn = false) as H4 by (vm_compute; reflexivity).
  assert (2 < Z.to_nat (num_round xn))%nat as H5 by (vm_compute; lia).
  split; [done|].
  exact (first_segment_accumulates 4 0 8 [] y0 y1 [] 8 2%nat H1 H2 H3 H4 H5).
Defined.

(** The first value of that curve in doubles is 0.9999999999999999, one
    unit in the last place below the control point 1.0. *)
Example first_value_is_not_the_control_point :
  ∃ p, yields (interpolgen 4 [0; 8] [Double.of_int 1; Double.decimal 9 10]) !! 0%nat = Some p
    ∧ p.2 = S754_finite false 9007199254740991 (-53)
    ∧ Double.of_int 1 = S754_finite false 4503599627370496 (-52).
Proof. eexists. split; [vm_compute; reflexivity|]. split; vm_compute; reflexivity. Qed.

(** X15, witness: in doubles, the curve with the x-points 18 and 36 over
    7 frames: [xn] is 3.4999999999999996 and the generator yields 3
    values. *)
Lemma two_point_curve_frame_count_witness :
  let y0 := Double.of_int 1 in
  let y1 := Double.decimal 1 2 in
  let dx := num_div (of_int 36) (of_int 7) in
  let xn := num_div (of_int (36 - 18)) dx in
  (7 ≠ 0 ∧ num_is_zero dx = false ∧ num_is_zero xn = false)
  ∧ length (yields (interpolgen 7 [18; 36] [y0; y1])) = Z.to_nat (num_round xn)
  ∧ ending (interpolgen 7 [18; 36] [y0; y1]) = None.
Proof.
  intros y0 y1 dx xn.
  assert (7 ≠ 0) as H1 by discriminate.
  assert (num_is_zero dx = false) as H2 by (vm_compute; reflexivity).
  assert (num_is_zero xn = false) as H3 by (vm_compute; reflexivity).
  split; [done|].
  exact (two_point_curve_frame_count 7 18 36 y0 y1 H1 H2 H3).
Defined.

(** In doubles that generator yields 3 values, where exact arithmetic has
    [xn = 7/2] and rounds it to 4. *)
Example two_point_curve_in_doubles :
  length (yields (interpolgen 7 [18; 36] [Double.of_int 1; Double.decimal 1 2])) = 3%nat
  ∧ length (yields (interpolgen 7 [18; 36] [1%Q; 1 # 2])) = 4%nat.
Proof. split; vm_compute; reflexivity. Qed.

(** ** The file split, for any fraction *)

Section SplitExtras.
Variable shuffle : list string → list string.
Hypothesis shuffle_perm : ∀ l, shuffle l ≡ₚ l.


End SplitExtras.


(** ** Padding and windowing: what is kept, what fails *)

Lemma chunks_concat {A B} (f : A → B) (s q : nat) : ∀ l : list A,
  length l = (q * s)%nat →
  concat ((λ k : nat, f <$> take s (drop (k * s) l)) <$> seq 0 q) = f <$> l.
Proof.
  induction q as [|q IH]; intros l Hl.
  - by destruct l.
  - cbn [seq fmap list_fmap concat]. rewrite drop_0.
    rewrite <- fmap_S_seq, <- list_fmap_compose.
    trans (f <$> (take s l ++ drop s l)); [|by rewrite take_drop].
    rewrite fmap_app. f_equal.
    rewrite <- (IH (drop s l)) by (rewrite length_drop; lia).
    f_equal. apply list_fmap_ext. intros i k _. cbn.
    by rewrite drop_drop.
Qed.

Lemma yields_foldr_Yield {A} (ws : list A) (g : gen A) :
  yields (foldr Yield g ws) = ws ++ yields g.
Proof. induction ws as [|w ws IH]; [done|]. cbn. by rewrite IH. Qed.

Lemma ending_foldr_Yield {A} (ws : list A) (g : gen A) :
  ending (foldr Yield g ws) = ending g.
Proof. by induction ws. Qed.

Section DatasetExtras.
Context {sample qtype : Type}.
Variable zero : sample.
Variable quantize_sample : qtype → Z → sample → Z.
Implicit Types b : list (list sample).

(** X11: a batch that has not exactly [batch_size] rows cannot be padded:
    the block of zeros has [batch_size] rows, the batch has another
    number, and concatenating them along the sample axis raises.  The
    last batch of a dataset batched without [drop_remainder] is such a
    batch whenever the number of audio buffers is not a multiple of
    [batch_size]. *)
Theorem pad_batch_rejects_partial_batch b batch_size seq_len overlap :
  b ≠ [] → seq_len ≠ 0 → 0 ≤ overlap → 0 ≤ batch_size →
  Z.of_nat (length b) ≠ batch_size →
  pad_batch zero b batch_size seq_len overlap = Raise InvalidArgumentError.
Proof.
  intros Hne Hs Hov HB Hlen. unfold pad_batch.
  destruct b as [|r0 b']; [done|]. cbn [first_row mbind result_bind].
  unfold floordiv. destruct (Z.eqb_spec seq_len 0); [done|]. cbn [mbind result_bind].
  unfold np_zeros.
  destruct (Z.ltb_spec batch_size 0); [lia|]. destruct (Z.ltb_spec overlap 0); [lia|].
  cbn [orb mbind result_bind tf_concat concat_rows].
  rewrite length_fmap, length_replicate.
  destruct (Nat.eqb_spec (length (r0 :: b')) (Z.to_nat batch_size)); [lia|done].
Qed.

(** X12: the targets tile each row.  For a batch of [batch_size] rows of
    [n] samples, the targets [y] of the successive windows, put one after
    the other, are for every row exactly the codes of its first
    [(n // seq_len) * seq_len] samples: each of those samples is a target
    once, in order, and the [n mod seq_len] trailing samples are in no
    window.  The first window's input begins with [overlap] codes of the
    zero sample, followed by the codes of the row's first [seq_len]
    samples. *)
Theorem targets_tile_the_rows b batch_size seq_len overlap q_type q_levels (n : nat) :
  0 < seq_len → 0 ≤ overlap → b ≠ [] → Z.of_nat (length b) = batch_size →
  (∀ row, row ∈ b → length row = n) →
  ∃ padded ws,
    pad_batch zero b batch_size seq_len overlap = Ok padded
    ∧ window_batch quantize_sample padded seq_len overlap q_type q_levels = Ok ws
    ∧ (∀ r row, b !! r = Some row →
         concat ((λ w : tensor * tensor, default [] (w.2 !! r)) <$> ws)
         = quantize_sample q_type q_levels
             <$> take (Z.to_nat (Z.of_nat n `div` seq_len) * Z.to_nat seq_len) row)
    ∧ (∀ x y r row, ws !! 0%nat = Some (x, y) → b !! r = Some row →
         x !! r = Some (replicate (Z.to_nat overlap) (quantize_sample q_type q_levels zero)
                        ++ (quantize_sample q_type q_levels
                              <$> take (Z.to_nat seq_len) row))).
Proof.
  intros Hs Hov Hne HB Hrows.
  pose proof (window_batch_padded zero quantize_sample b seq_len overlap q_type q_levels n
                Hs Hov Hne Hrows) as Hw. cbv zeta in Hw.
  set (s := Z.to_nat seq_len) in *. set (ov := Z.to_nat overlap) in *.
  set (q := Z.to_nat (Z.of_nat n `div` seq_len)) in *.
  set (pad := λ row : list sample, replicate ov zero ++ take (q * s) row) in *.
  assert (q * s ≤ n)%nat as Hqs.
  { pose proof (Z.mul_div_le (Z.of_nat n) seq_len Hs).
    assert (0 ≤ Z.of_nat n `div` seq_len) by (apply Z.div_pos; lia). unfold q, s. nia. }
  set (xk := λ k : nat, (λ row, quantize_sample q_type q_levels <$>
                           take (ov + s) (drop (k * s) (pad row))) <$> b) in *.
  exists (pad <$> b), ((λ k : nat, (xk k, drop ov <$> xk k)) <$> seq 0 q).
  split; [exact (pad_batch_Ok zero b batch_size seq_len overlap n Hs Hov Hne HB Hrows)|].
  split; [exact Hw|]. split.
  - intros r row Hr.
    assert (length row = n) as Hn by (apply Hrows; by eapply list_elem_of_lookup_2).
    rewrite <- list_fmap_compose.
    rewrite <- (chunks_concat (quantize_sample q_type q_levels) s q (take (q * s) row))
      by (rewrite length_take; lia).
    f_equal. apply list_fmap_ext. intros i k _. cbn. unfold xk.
    assert (∀ t : list (list Z), (drop ov <$> t) !! r = drop ov <$> t !! r) as ->
      by (intros t; apply list_lookup_fmap).
    rewrite list_lookup_fmap, Hr. cbn.
    rewrite <- fmap_drop. f_equal.
    rewrite <- take_drop_commute, drop_drop. f_equal.
    replace (k * s + ov)%nat with (ov + k * s)%nat by lia.
    rewrite <- drop_drop. f_equal. unfold pad.
    apply drop_app_length'. by rewrite length_replicate.
  - intros x y r row Hw0 Hr.
    apply list_lookup_fmap_Some in Hw0 as (k & Heq & Hk).
    apply lookup_seq in Hk as [-> Hk]. cbn [Nat.add] in Heq. simplify_eq.
    unfold xk. apply list_lookup_fmap_Some. exists row. split; [|done].
    rewrite drop_0. unfold pad.
    rewrite take_app, length_replicate, take_replicate.
    replace (ov + s - ov)%nat with s by lia.
    replace ((ov + s) `min` ov)%nat with ov by lia.
    rewrite fmap_app, fmap_replicate. f_equal. f_equal.
    rewrite take_take. f_equal. nia.
Qed.

(** X13: the windows of a dataset are the windows of its batches, one
    batch after the other; and when a batch cannot be windowed, the
    stream ends with that batch's exception after the windows of the
    batches before it, and the batches after it are not read. *)
Theorem get_subseq_chains_batches (good : list (list (list sample)))
    (wss : list (list (tensor * tensor))) seq_len overlap q_type q_levels :
  Forall2 (λ b ws, window_batch quantize_sample b seq_len overlap q_type q_levels = Ok ws)
          good wss →
  (yields (get_subseq quantize_sample good seq_len overlap q_type q_levels) = concat wss
   ∧ ending (get_subseq quantize_sample good seq_len overlap q_type q_levels) = None)
  ∧ (∀ bad rest e,
       window_batch quantize_sample bad seq_len overlap q_type q_levels = Raise e →
       yields (get_subseq quantize_sample (good ++ bad :: rest) seq_len overlap
                 q_type q_levels) = concat wss
       ∧ ending (get_subseq quantize_sample (good ++ bad :: rest) seq_len overlap
                   q_type q_levels) = Some e).
Proof.
  induction 1 as [|b ws good wss Hb _ IH].
  - split; [done|]. intros bad rest e Hbad. cbn. by rewrite Hbad.
  - destruct IH as [[IHy IHe] IHbad]. cbn [get_subseq app]. rewrite Hb.
    rewrite !yields_foldr_Yield, !ending_foldr_Yield. cbn [concat].
    split; [by rewrite IHy|].
    intros bad rest e Hbad. rewrite yields_foldr_Yield, ending_foldr_Yield.
    destruct (IHbad bad rest e Hbad) as [-> ->]. done.
Qed.

End DatasetExtras.

(** X11, witness: one buffer left for a batch size of 2. *)
Lemma pad_batch_rejects_partial_batch_witness :
  ([[1; 2; 3; 4; 5]] ≠ [] ∧ 2 ≠ 0 ∧ 0 ≤ 1 ∧ 0 ≤ 2
   ∧ Z.of_nat (length [[1; 2; 3; 4; 5]]) ≠ 2)
  ∧ pad_batch 0 [[1; 2; 3; 4; 5]] 2 2 1 = Raise InvalidArgumentError.
Proof.
  assert ([[1; 2; 3; 4; 5]] ≠ []) as H1 by discriminate.
  assert (2 ≠ 0) as H2 by discriminate.
  assert (0 ≤ 1) as H3 by lia.
  assert (0 ≤ 2) as H4 by lia.
  assert (Z.of_nat (length [[1; 2; 3; 4; 5]]) ≠ 2) as H5 by discriminate.
  split; [done|].
  exact (pad_batch_rejects_partial_batch 0 [[1; 2; 3; 4; 5]] 2 2 1 H1 H2 H3 H4 H5).
Defined.

(** X12, witness: two rows of five samples, windows of 2 with overlap 1;
    the targets are the first four samples of each row, the fifth is in
    no window. *)
Lemma targets_tile_the_rows_witness :
  let b := [[1; 2; 3; 4; 5]; [6; 7; 8; 9; 10]] in
  (0 < 2 ∧ 0 ≤ 1 ∧ b ≠ [] ∧ Z.of_nat (length b) = 2
   ∧ ∀ row, row ∈ b → length row = 5%nat)
  ∧ ∃ padded ws,
      pad_batch 0 b 2 2 1 = Ok padded
      ∧ window_batch Stub.quantize_sample padded 2 1 () 256 = Ok ws
      ∧ (∀ r row, b !! r = Some row →
           concat ((λ w : tensor * tensor, default [] (w.2 !! r)) <$> ws)
           = Stub.quantize_sample () 256
               <$> take (Z.to_nat (Z.of_nat 5 `div` 2) * Z.to_nat 2) row)
      ∧ (∀ x y r row, ws !! 0%nat = Some (x, y) → b !! r = Some row →
           x !! r = Some (replicate (Z.to_nat 1) (Stub.quantize_sample () 256 0)
                          ++ (Stub.quantize_sample () 256 <$> take (Z.to_nat 2) row))).
Proof.
  intros b.
  assert (0 < 2) as H1 by lia.
  assert (0 ≤ 1) as H2 by lia.
  assert (b ≠ []) as H3 by discriminate.
  assert (Z.of_nat (length b) = 2) as H4 by reflexivity.
  assert (∀ row, row ∈ b → length row = 5%nat) as H5.
  { intros row Hrow. repeat (apply elem_of_cons in Hrow as [->|Hrow]; [reflexivity|]).
    by apply elem_of_nil in Hrow. }
  split; [done|].
  exact (targets_tile_the_rows 0 Stub.quantize_sample b 2 2 1 () 256 5 H1 H2 H3 H4 H5).
Defined.

(** X13, witness: a dataset of one padded batch with two windows, then an
    empty batch. *)
Lemma get_subseq_chains_batches_witness :
  let b := [[0; 1; 2; 3; 4]; [0; 6; 7; 8; 9]] in
  let ws := [([[0; 1; 2]; [0; 6; 7]], [[1; 2]; [6; 7]]);
             ([[2; 3; 4]; [7; 8; 9]], [[3; 4]; [8; 9]])] in
  Forall2 (λ b ws, window_batch Stub.quantize_sample b 2 1 () 256 = Ok ws) [b] [ws]
  ∧ (yields (get_subseq Stub.quantize_sample [b] 2 1 () 256) = concat [ws]
     ∧ ending (get_subseq Stub.quantize_sample [b] 2 1 () 256) = None)
  ∧ (∀ bad rest e,
       window_batch Stub.quantize_sample bad 2 1 () 256 = Raise e →
       yields (get_subseq Stub.quantize_sample ([b] ++ bad :: rest) 2 1 () 256)
       = concat [ws]
       ∧ ending (get_subseq Stub.quantize_sample ([b] ++ bad :: rest) 2 1 () 256)
         = Some e).
Proof.
  intros b ws.
  assert (Forall2 (λ b ws, window_batch Stub.quantize_sample b 2 1 () 256 = Ok ws)
            [b] [ws]) as H1 by (repeat constructor).
  split; [done|].
  exact (get_subseq_chains_batches Stub.quantize_sample [b] [ws] 2 1 () 256 H1).
Defined.

(** ** The length of the temperature stream *)

Section StreamLength.
Context {F : Type} `{PyNum F}.
Implicit Types temps : list (tsource F).

(** The stream is no longer than any of its generators. *)
Lemma temperature_loop_le_source n : ∀ temps g,
  SGen g ∈ temps →
  (length (yields (temperature_loop n temps)) ≤ length (yields g))%nat.
Proof.
  induction n as [|n IH]; intros temps g Hg; [cbn; lia|].
  cbn [temperature_loop]. destruct (pull temps) as [[out temps']|e] eqn:Hp.
  - destruct (pull_Ok_inv _ _ _ Hp) as (_ & Hfw & _).
    destruct (Hfw g Hg) as (a & g' & -> & Hin). cbn. specialize (IH temps' g' Hin). lia.
  - destruct e; cbn; lia.
Qed.

(** The stream has [k] vectors when it may run for [k] frames and every
    generator has [k] values. *)
Lemma temperature_loop_ge n : ∀ temps k,
  (k ≤ n)%nat →
  (∀ g, SGen g ∈ temps → (k ≤ length (yields g))%nat) →
  (k ≤ length (yields (temperature_loop n temps)))%nat.
Proof.
  induction n as [|n IH]; intros temps k Hk Hall; [cbn; lia|].
  destruct k as [|k]; [lia|].
  cbn [temperature_loop]. destruct (pull temps) as [[out temps']|e] eqn:Hp.
  - destruct (pull_Ok_inv _ _ _ Hp) as (_ & _ & Hbw). cbn.
    assert (k ≤ length (yields (temperature_loop n temps')))%nat; [|lia].
    apply IH; [lia|]. intros g' Hg'. destruct (Hbw g' Hg') as (a & Hin).
    specialize (Hall _ Hin). cbn in Hall. lia.
  - destruct (pull_Raise_inv _ _ Hp) as (g & Hin & Hn).
    specialize (Hall _ Hin). destruct g; cbn in Hn, Hall; [done|lia|lia].
Qed.

(** X14: the temperature stream is as long as its shortest curve, capped
    at [nsamps].  It yields at most [nsamps] vectors and at most as many
    as any of its curves' generators yields values; and whenever
    [k <= nsamps] and every curve's generator yields at least [k] values,
    the stream yields at least [k] vectors.  This holds however the
    generators end, by exhaustion or by an error. *)
Theorem stream_length_is_shortest_curve (parsed : list (tspec F)) nsamps :
  (length (yields (get_temperature parsed nsamps)) ≤ Z.to_nat nsamps)%nat
  ∧ (∀ xs ys, Curve xs ys ∈ parsed →
       (length (yields (get_temperature parsed nsamps))
        ≤ length (yields (interpolgen nsamps xs ys)))%nat)
  ∧ (∀ k : nat,
       (k ≤ Z.to_nat nsamps)%nat →
       (∀ xs ys, Curve xs ys ∈ parsed →
          (k ≤ length (yields (interpolgen nsamps xs ys)))%nat) →
       (k ≤ length (yields (get_temperature parsed nsamps)))%nat).
Proof.
  unfold get_temperature. split; [|split].
  - etransitivity; [apply temperature_loop_count|]. unfold range_len. lia.
  - intros xs ys Hin. apply temperature_loop_le_source.
    apply list_elem_of_fmap. by exists (Curve xs ys).
  - intros k Hk Hall. apply temperature_loop_ge; [unfold range_len; lia|].
    intros g Hg. apply list_elem_of_fmap in Hg as ([v|xs ys] & Heq & Hin);
      cbn in Heq; simplify_eq. by apply Hall.
Qed.

End StreamLength.
